(** * Room acoustics driver: RT60 (Sabine) and energy decay

    A shallow embedding of [src/main.py]:

    - [compute_room_volume], [compute_surface_areas], [calculate_rt60]
      (the Sabine reverberation-time calculation, lines 9-33);
    - the energy of the decay plot of [plot_responses_and_rt60] (line 72),
      its normalisation by the maximum (line 73) and the bars of the RT60
      plot (lines 62-64);
    - a store-passing version of [calculate_rt60] over a heap of Python
      objects, to speak about what a call mutates;
    - the facade [image_source_method] of the absent module [acoustics],
      modelled from the specification.

    Numbers.  The JSON configuration holds Python ints and floats.  They are
    idealised here as exact rationals ([Q]): every int and every finite float
    is one, the literal [0.161] is [161/1000], and [+], [*], [/] are exact.
    Rounding, infinities and NaN are outside the model.  Equality of numbers
    is [Qeq] ([==]), equality of rationals as numbers.

    Dictionaries.  A Python [dict] with string keys is a [gmap string _]:
    keys are unique and two dicts are equal when they hold the same items,
    as Python's [==] on dicts has it.  A [for] loop over [d.items()] runs
    over [map_to_list d]. *)

From Stdlib Require Import QArith Lqa.
From stdpp Require Import base gmap list strings.

Local Open Scope Q_scope.

(** ** Exceptions and the error monad *)

Module Py.

(** The exceptions the modelled statements can raise. *)
Inductive exception : Type :=
| ValueError          (* unpacking a sequence of the wrong length *)
| ZeroDivisionError   (* [x / 0] *)
| TypeError           (* an object of the wrong kind *)
| NameError.          (* a dangling reference; never met from a live name *)

Inductive result (A : Type) : Type :=
| Ok (a : A)
| Raise (e : exception).
Arguments Ok {A} a.
Arguments Raise {A} e.

#[export] Instance result_ret : MRet result := λ A a, Ok a.
#[export] Instance result_bind : MBind result := λ A B f m,
  match m with
  | Ok a => f a
  | Raise e => Raise e
  end.

Definition raises {A} (m : result A) : Prop := ∃ e, m = Raise e.

(** [for x in xs: body] with the loop-carried variables as [s]. *)
Fixpoint for_each {A S : Type} (xs : list A) (s : S)
    (body : A → S → result S) : result S :=
  match xs with
  | [] => Ok s
  | x :: xs' => s' ← body x s; for_each xs' s' body
  end.

(** [a, b, c = xs] *)
Definition unpack3 (xs : list Q) : result (Q * Q * Q) :=
  match xs with
  | [a; b; c] => Ok (a, b, c)
  | _ => Raise ValueError
  end.

(** The builtin [sum]: starts from [0] and adds from the left. *)
Definition sum (xs : list Q) : Q := foldl Qplus 0 xs.

(** [x > y] *)
Definition gt (x y : Q) : bool := negb (Qle_bool x y).

(** [x / y] *)
Definition truediv (x y : Q) : result Q :=
  if Qeq_bool y 0 then Raise ZeroDivisionError else Ok (x / y).

End Py.
Import Py.

(** ** RT60 calculation (main.py, lines 9-33) *)

Definition compute_room_volume (room_dims : list Q) : result Q :=
  '(length, width, height) ← unpack3 room_dims;
  Ok (length * width * height).

Definition compute_surface_areas (room_dims : list Q) : result (list Q) :=
  '(length, width, height) ← unpack3 room_dims;
  Ok [length * width; length * width;      (* Floor & Ceiling *)
      length * height; length * height;    (* Front & Back Walls *)
      width * height; width * height].     (* Left & Right Walls *)

(** [sum(area * alpha for area, alpha in zip(surface_areas, coeffs))] *)
Definition total_absorption_of (surface_areas coeffs : list Q) : Q :=
  Py.sum ((λ '(area, alpha), area * alpha) <$> zip surface_areas coeffs).

(** [0.161 * (volume / total_absorption) if total_absorption > 0 else 0] *)
Definition rt60_of (volume total_absorption : Q) : result Q :=
  if Py.gt total_absorption 0
  then q ← truediv volume total_absorption; Ok (0.161 * q)
  else Ok 0.

Definition calculate_rt60 (room_dims : list Q) (abs_coeff : gmap string (list Q))
    : result (gmap string Q) :=
  volume ← compute_room_volume room_dims;
  surface_areas ← compute_surface_areas room_dims;
  for_each (map_to_list abs_coeff) (∅ : gmap string Q)
    (λ '(band, coeffs) rt60_results,
       let total_absorption := total_absorption_of surface_areas coeffs in
       rt60 ← rt60_of volume total_absorption;
       Ok (<[band := rt60]> rt60_results)).

(** The value line 32 stores for a band, as a total function: by
    [rt60_of_ok] below, [rt60_of] never raises, its division being guarded
    by the test. *)
Definition rt60_value (volume total_absorption : Q) : Q :=
  if Py.gt total_absorption 0 then 0.161 * (volume / total_absorption) else 0.

(** The total absorption in the words of the specification: the sum over the
    six walls of [wall_area_i * abs_coeff[band][i]].  A wall without a
    coefficient ([i] past the end of [coeffs]) contributes [0]. *)
Definition wall_sum (areas coeffs : list Q) : Q :=
  foldr (λ i acc, nth i areas 0 * nth i coeffs 0 + acc) 0 (seq 0 6).

(** ** Energy of the decay plot (main.py, line 72) *)

Module Np.

(** Running sums continuing from [acc]. *)
Fixpoint running (acc : Q) (xs : list Q) : list Q :=
  match xs with
  | [] => []
  | x :: xs' => (acc + x) :: running (acc + x) xs'
  end.

(** [np.cumsum(xs)]: element [i] is [xs[0] + ... + xs[i]]. *)
Definition cumsum (xs : list Q) : list Q :=
  match xs with
  | [] => []
  | x :: xs' => x :: running x xs'
  end.

(** [xs ** 2], elementwise *)
Definition square (xs : list Q) : list Q := (λ x, x ^ 2) <$> xs.

End Np.

(** [energy = np.cumsum(response[0]**2)[::-1]] *)
Definition decay_energy (response0 : list Q) : list Q :=
  reverse (Np.cumsum (Np.square response0)).

(** The decay curve in the words of the specification: "cumulative sum from
    the end" of the squared amplitudes, the value at index [t] being the sum
    of [a[j]^2] for [j] from [t] to [n-1]. *)
Fixpoint backward_energy_spec (a : list Q) : list Q :=
  match a with
  | [] => []
  | x :: a' => (x ^ 2 + Py.sum (Np.square a')) :: backward_energy_spec a'
  end.

(** ** A store-passing version of the RT60 calculation *)

Module Store.

(** References to Python objects. *)
Abbreviation loc := positive (only parsing).

(** The objects the call meets: lists of numbers ([room_dims], a band's
    coefficients, [surface_areas]), the dict [abs_coeff], whose values are
    references to lists, and the dict [rt60_results] of numbers. *)
Inductive object : Type :=
| PyList (items : list Q)
| PyDict (items : gmap string loc)
| PyNumDict (items : gmap string Q).

Abbreviation heap := (gmap positive object) (only parsing).

(** Statements: they may read and write the heap, and may raise. *)
Definition M (A : Type) : Type := heap → result (A * heap).

#[global] Instance M_ret : MRet M := λ A a σ, Ok (a, σ).
#[global] Instance M_bind : MBind M := λ A B f m σ,
  match m σ with
  | Ok (a, σ') => f a σ'
  | Raise e => Raise e
  end.

Definition lift {A : Type} (r : result A) : M A := λ σ,
  match r with
  | Ok a => Ok (a, σ)
  | Raise e => Raise e
  end.

(** A new object, at an address not in use. *)
Definition alloc (o : object) : M loc := λ σ,
  let l := fresh (dom σ) in Ok (l, <[l := o]> σ).

Definition read_list (l : loc) : M (list Q) := λ σ,
  match σ !! l with
  | Some (PyList xs) => Ok (xs, σ)
  | Some _ => Raise TypeError
  | None => Raise NameError
  end.

(** [d.items()] *)
Definition dict_items (d : loc) : M (list (string * loc)) := λ σ,
  match σ !! d with
  | Some (PyDict m) => Ok (map_to_list m, σ)
  | Some _ => Raise TypeError
  | None => Raise NameError
  end.

(** [d[k] = v], in place *)
Definition setitem (d : loc) (k : string) (v : Q) : M unit := λ σ,
  match σ !! d with
  | Some (PyNumDict m) => Ok ((), <[d := PyNumDict (<[k := v]> m)]> σ)
  | Some _ => Raise TypeError
  | None => Raise NameError
  end.

Fixpoint for_each {A : Type} (xs : list A) (body : A → M unit) : M unit :=
  match xs with
  | [] => mret ()
  | x :: xs' => body x;; for_each xs' body
  end.

Definition compute_room_volume (room_dims : loc) : M Q :=
  dims ← read_list room_dims;
  '(length, width, height) ← lift (unpack3 dims);
  mret (length * width * height).

Definition compute_surface_areas (room_dims : loc) : M loc :=
  dims ← read_list room_dims;
  '(length, width, height) ← lift (unpack3 dims);
  alloc (PyList [length * width; length * width;
                 length * height; length * height;
                 width * height; width * height]).

Definition calculate_rt60 (room_dims abs_coeff : loc) : M loc :=
  volume ← compute_room_volume room_dims;
  surface_areas ← compute_surface_areas room_dims;
  rt60_results ← alloc (PyNumDict ∅);
  items ← dict_items abs_coeff;
  for_each items (λ '(band, coeffs),
    areas ← read_list surface_areas;
    alphas ← read_list coeffs;
    let total_absorption := total_absorption_of areas alphas in
    rt60 ← lift (rt60_of volume total_absorption);
    setitem rt60_results band rt60);;
  mret rt60_results.

(** The dict [abs_coeff] as a value: each band with the list its reference
    points to. *)
Definition view (σ : heap) (d : gmap string loc) : gmap string (list Q) :=
  omap (λ lc, match σ !! lc with Some (PyList cs) => Some cs | _ => None end) d.

End Store.

(** A heap in which [room_dims] is a list of three numbers and [abs_coeff] a
    dict from bands to lists of numbers. *)
Definition well_formed (σ : Store.heap) (room_dims abs_coeff : Store.loc)
    (dims : list Q) (bands : gmap string (list Q)) : Prop :=
  length dims = 3%nat
  ∧ σ !! room_dims = Some (Store.PyList dims)
  ∧ ∃ d, σ !! abs_coeff = Some (Store.PyDict d)
         ∧ (∀ band lc, d !! band = Some lc → ∃ cs, σ !! lc = Some (Store.PyList cs))
         ∧ Store.view σ d = bands.

Definition example_coeffs : list Q := [0.1; 0.1; 0.1; 0.1; 0.1; 0.1].

Definition example_heap1 : Store.heap :=
  {[ 1%positive := Store.PyList [5; 4; 3];
     2%positive := Store.PyDict {[ "low"%string := 3%positive ]};
     3%positive := Store.PyList example_coeffs ]}.

Definition example_heap2 : Store.heap :=
  {[ 7%positive := Store.PyList [5; 4; 3];
     9%positive := Store.PyDict {[ "low"%string := 4%positive ]};
     4%positive := Store.PyList example_coeffs ]}.

(** ** The facade of the simulation engine (module [acoustics], absent) *)

Module Acoustics.

(** Modelled from the spec: the error kinds of section 7; the module
    [acoustics] that raises them is not among the sources. *)
Inductive error : Type :=
| InvalidGeometry
| InvalidAbsorption
| EmptyConfiguration
| OutOfBoundsPosition.

Abbreviation position := (Q * Q * Q)%type (only parsing).

(** One impulse response: amplitude samples indexed by discrete time. *)
Abbreviation ImpulseResponse := (list Q) (only parsing).

(** Modelled from the spec: [SimulationConfig] of section 3, the arguments
    of the constructor [RoomAcoustics] in main.py. *)
Record SimulationConfig : Type := {
  room_dims : Q * Q * Q;
  source_positions : list position;
  receiver_positions : list position;
  abs_coeff : gmap string (list Q);
  max_order : nat
}.

(** Modelled from the spec: the invariant of [RoomGeometry], all three
    dimensions [> 0] (sections 3 and 4.1). *)
Definition valid_geometry (dims : Q * Q * Q) : bool :=
  let '(length, width, height) := dims in
  Py.gt length 0 && Py.gt width 0 && Py.gt height 0.

(** Modelled from the spec: the invariant of [AbsorptionSpec], exactly six
    coefficients per band, each in [0,1] (sections 3, 4.3 and 7). *)
Definition valid_band (coeffs : list Q) : bool :=
  Nat.eqb (length coeffs) 6
  && forallb (λ alpha, Qle_bool 0 alpha && Qle_bool alpha 1) coeffs.

Definition valid_absorption (abs_coeff : gmap string (list Q)) : bool :=
  forallb (λ '(_, coeffs), valid_band coeffs) (map_to_list abs_coeff).

(** Modelled from the spec: a position is valid when each coordinate lies
    between [0] and the matching dimension, bounds included (section 3). *)
Definition in_room (dims : Q * Q * Q) (p : position) : bool :=
  let '(length, width, height) := dims in
  let '(x, y, z) := p in
  Qle_bool 0 x && Qle_bool x length
  && Qle_bool 0 y && Qle_bool y width
  && Qle_bool 0 z && Qle_bool z height.

(** Modelled from the spec: the validation of section 7, done before any
    simulation work.  The specification does not fix the order in which
    the checks run; it matters only for which error an input with several
    defects reports. *)
Definition validate (config : SimulationConfig) : option error :=
  if negb (valid_geometry (room_dims config)) then Some InvalidGeometry
  else if negb (valid_absorption (abs_coeff config)) then Some InvalidAbsorption
  else if bool_decide (source_positions config = [])
          || bool_decide (receiver_positions config = [])
       then Some EmptyConfiguration
  else if negb (forallb (in_room (room_dims config))
                  (source_positions config ++ receiver_positions config))
       then Some OutOfBoundsPosition
  else None.

Section Engine.

(** The number of samples of a response, and the chain enumerator (4.2),
    attenuation (4.3), synthesizer (4.4) run for one source, one receiver
    and one band: the buffer of that source's contributions.  Distances and
    attenuations take square roots, which the rationals do not have; the
    chain is a parameter of the facade. *)
Variable buffer_length : nat.
Variable contribution :
  SimulationConfig → bool → string → position → position → ImpulseResponse.

(** Modelled from the spec: the buffer of one receiver in one band,
    "accumulates contributions from all configured sources", sample by
    sample (section 4.5). *)
Definition response (config : SimulationConfig) (enhanced : bool)
    (band : string) (receiver : position) : ImpulseResponse :=
  foldl (λ buffer source,
           zip_with Qplus buffer (contribution config enhanced band source receiver))
        (replicate buffer_length 0)
        (source_positions config).

(** Modelled from the spec: [image_source_method] of section 4.5, "keyed
    first by band, each value being an ordered sequence of responses, one
    per receiver"; the bands are those of [abs_coeff]. *)
Definition image_source_method (config : SimulationConfig) (enhanced : bool)
    : error + gmap string (list ImpulseResponse) :=
  match validate config with
  | Some e => inl e
  | None =>
      inr (map_imap (λ band _,
             Some ((λ receiver, response config enhanced band receiver)
                     <$> receiver_positions config))
             (abs_coeff config))
  end.

End Engine.

End Acoustics.

(** [simulate_acoustics] of main.py (line 43) calls the facade with
    [enhanced=True]. *)
Definition simulate_acoustics (buffer_length : nat)
    (contribution : Acoustics.SimulationConfig → bool → string →
                    Q * Q * Q → Q * Q * Q → list Q)
    (acoustics_simulator : Acoustics.SimulationConfig)
    : Acoustics.error + gmap string (list (list Q)) :=
  Acoustics.image_source_method buffer_length contribution acoustics_simulator true.

Definition example_config : Acoustics.SimulationConfig :=
  {| Acoustics.room_dims := (4, 3, 2.5);
     Acoustics.source_positions := [(1, 1, 1)];
     Acoustics.receiver_positions := [(2, 2, 1); (3, 1, 1)];
     Acoustics.abs_coeff :=
       {[ "low"%string := [0.3; 0.3; 0.3; 0.3; 0.3; 0.3];
          "mid"%string := [0.3; 0.3; 0.3; 0.3; 0.3; 0.3];
          "high"%string := [0.3; 0.3; 0.3; 0.3; 0.3; 0.3] ]};
     Acoustics.max_order := 3 |}.

(** A stand-in for the chain of one source: a unit impulse at sample 0 of a
    buffer of four samples. *)
Definition example_contribution (config : Acoustics.SimulationConfig)
    (enhanced : bool) (band : string) (source receiver : Q * Q * Q) : list Q :=
  [1; 0; 0; 0].

(** ** Data of the plots (main.py, lines 45-84) *)

Module Plot.

(** The exceptions the plot code can raise on its arguments. *)
Inductive exception : Type :=
| KeyError (key : string)   (* [d[key]] with [key] absent *)
| ValueError.               (* [np.max] of an empty array *)

(** [d[key]] *)
Definition getitem (d : gmap string Q) (key : string) : exception + Q :=
  match d !! key with
  | Some v => inr v
  | None => inl (KeyError key)
  end.

(** [bands = ['Low', 'Mid', 'High']] (line 62) *)
Definition bands : list string := ["Low"; "Mid"; "High"]%string.

(** [values = [rt60_values['low'], rt60_values['mid'], rt60_values['high']]]
    (line 63); the elements are evaluated from left to right. *)
Definition values (rt60_values : gmap string Q) : exception + list Q :=
  match getitem rt60_values "low" with
  | inl e => inl e
  | inr low =>
      match getitem rt60_values "mid" with
      | inl e => inl e
      | inr mid =>
          match getitem rt60_values "high" with
          | inl e => inl e
          | inr high => inr [low; mid; high]
          end
      end
  end.

(** The bars of [ax2.bar(bands, values)] (line 64): label and height. *)
Definition bars (rt60_values : gmap string Q) : exception + list (string * Q) :=
  match values rt60_values with
  | inl e => inl e
  | inr vs => inr (zip bands vs)
  end.

(** [np.max(xs)] *)
Definition max (xs : list Q) : exception + Q :=
  match xs with
  | [] => inl ValueError
  | x :: xs' => inr (foldl (λ m y, if Qle_bool m y then y else m) x xs')
  end.

(** The values of a float array: numpy does not raise on a division by
    zero, it yields an infinity or NaN. *)
Inductive float : Type :=
| Finite (q : Q)
| PosInf
| NegInf
| NaN.

(** [x / m] on floats, for finite [x] and [m] *)
Definition divide (x m : Q) : float :=
  if Qeq_bool m 0
  then (if Qeq_bool x 0 then NaN else if Py.gt x 0 then PosInf else NegInf)
  else Finite (x / m).

(** [energy / np.max(energy)], the argument of [np.log10] on line 73, with
    [energy] of line 72. *)
Definition normalised_energy (response0 : list Q) : exception + list float :=
  let energy := decay_energy response0 in
  match max energy with
  | inl e => inl e
  | inr m => inr ((λ e, divide e m) <$> energy)
  end.

End Plot.

(** ** Basic facts about the Python primitives *)

Section PyFacts.

Lemma gt_true (x y : Q) : Py.gt x y = true ↔ y < x.
Proof.
  unfold Py.gt. rewrite negb_true_iff, <- not_true_iff_false, Qle_bool_iff.
  split; [apply Qnot_le_lt | apply Qlt_not_le].
Qed.

Lemma gt_false (x y : Q) : Py.gt x y = false ↔ x <= y.
Proof. unfold Py.gt. by rewrite negb_false_iff, Qle_bool_iff. Qed.

Lemma truediv_nonzero (x y : Q) : ¬ y == 0 → truediv x y = Ok (x / y).
Proof.
  intros Hy. unfold truediv.
  destruct (Qeq_bool y 0) eqn:E; [|done].
  by apply Qeq_bool_iff in E.
Qed.

Lemma unpack3_ok (xs : list Q) (t : Q * Q * Q) :
  unpack3 xs = Ok t ↔ xs = [t.1.1; t.1.2; t.2].
Proof.
  destruct t as [[a b] c]; simpl.
  destruct xs as [|x [|y [|z [|? ?]]]]; simpl; split; intros H; by inversion H.
Qed.


(** [sum] from a running total. *)
Lemma foldl_Qplus_shift (xs : list Q) (a : Q) :
  foldl Qplus a xs == a + Py.sum xs.
Proof.
  unfold Py.sum. revert a.
  induction xs as [|x xs IH]; intros a; simpl; [lra|].
  rewrite (IH (a + x)), (IH (0 + x)). lra.
Qed.

Lemma sum_cons (x : Q) (xs : list Q) : Py.sum (x :: xs) == x + Py.sum xs.
Proof. unfold Py.sum at 1; simpl. rewrite foldl_Qplus_shift. lra. Qed.

Lemma sum_app (xs ys : list Q) : Py.sum (xs ++ ys) == Py.sum xs + Py.sum ys.
Proof.
  induction xs as [|x xs IH]; simpl.
  - unfold Py.sum at 2; simpl. lra.
  - rewrite !sum_cons, IH. lra.
Qed.

End PyFacts.

(** ** The RT60 loop, characterised *)

Lemma rt60_of_ok (volume total_absorption : Q) :
  rt60_of volume total_absorption = Ok (rt60_value volume total_absorption).
Proof.
  unfold rt60_of, rt60_value.
  destruct (Py.gt total_absorption 0) eqn:E; [|done].
  apply gt_true in E. rewrite truediv_nonzero; [done|].
  intros H0. rewrite H0 in E. by apply Qlt_irrefl in E.
Qed.

(** A loop that stores [f k a] under every key [k] of an item list with
    distinct keys ends with exactly those entries added. *)
Lemma for_each_store {A B : Type} (f : string → A → result B) (g : string → A → B)
    (items : list (string * A)) (acc : gmap string B) :
  (∀ k a, (k, a) ∈ items → f k a = Ok (g k a)) →
  NoDup items.*1 →
  ∃ r, for_each items acc (λ '(k, a) m, v ← f k a; Ok (<[k := v]> m)) = Ok r
       ∧ ∀ k, r !! k = match (list_to_map items : gmap string A) !! k with
                       | Some a => Some (g k a)
                       | None => acc !! k
                       end.
Proof.
  intros Hf. revert acc.
  induction items as [|[k0 a0] items IH]; intros acc Hnd.
  - exists acc. split; [done|]. intros k. simpl. by rewrite lookup_empty.
  - apply NoDup_cons in Hnd as [Hk0 Hnd]. simpl.
    rewrite Hf by left. simpl.
    destruct (IH (λ k a Hin, Hf k a (list_elem_of_further _ _ _ Hin))
                 (<[k0 := g k0 a0]> acc) Hnd) as (r & Hr & Hlk).
    exists r. split; [done|]. intros k. rewrite Hlk.
    destruct (decide (k0 = k)) as [->|Hne].
    + rewrite lookup_insert_eq.
      rewrite (not_elem_of_list_to_map_1 _ k Hk0). by rewrite lookup_insert_eq.
    + by rewrite !lookup_insert_ne.
Qed.

(** The whole loop over a dict is a pointwise map of its values. *)
Lemma for_each_items_fmap {A B : Type} (f : string → A → result B) (g : string → A → B)
    (d : gmap string A) :
  (∀ k a, f k a = Ok (g k a)) →
  for_each (map_to_list d) (∅ : gmap string B)
    (λ '(k, a) m, v ← f k a; Ok (<[k := v]> m)) = Ok (map_imap (λ k a, Some (g k a)) d).
Proof.
  intros Hf.
  destruct (for_each_store f g (map_to_list d) ∅ (λ k a _, Hf k a)
              (NoDup_fst_map_to_list d)) as (r & -> & Hlk).
  f_equal. apply map_eq. intros k.
  rewrite Hlk, list_to_map_to_list, map_lookup_imap, lookup_empty.
  by destruct (d !! k).
Qed.

(** [calculate_rt60] on a three-element [room_dims]: it returns, and the
    returned dict holds [rt60_value] of each band's total absorption. *)
Lemma calculate_rt60_unfold (length width height : Q) (abs_coeff : gmap string (list Q)) :
  calculate_rt60 [length; width; height] abs_coeff =
  Ok ((λ coeffs,
         rt60_value (length * width * height)
           (total_absorption_of
              [length * width; length * width; length * height; length * height;
               width * height; width * height] coeffs)) <$> abs_coeff).
Proof.
  unfold calculate_rt60, compute_room_volume, compute_surface_areas. simpl.
  set (areas := [_; _; _; _; _; _]).
  set (V := length * width * height).
  rewrite (for_each_items_fmap
             (λ _ coeffs, rt60_of V (total_absorption_of areas coeffs))
             (λ _ coeffs, rt60_value V (total_absorption_of areas coeffs)))
    by (intros; apply rt60_of_ok).
  f_equal. apply map_eq. intros k.
  rewrite map_lookup_imap, lookup_fmap. by destruct (abs_coeff !! k).
Qed.

Lemma calculate_rt60_lookup (length width height : Q)
    (abs_coeff : gmap string (list Q)) (res : gmap string Q) (band : string) :
  calculate_rt60 [length; width; height] abs_coeff = Ok res →
  res !! band =
  (λ coeffs,
     rt60_value (length * width * height)
       (total_absorption_of
          [length * width; length * width; length * height; length * height;
           width * height; width * height] coeffs)) <$> abs_coeff !! band.
Proof.
  rewrite calculate_rt60_unfold. intros [= <-]. by rewrite lookup_fmap.
Qed.


Lemma rt60_value_pos (volume total_absorption : Q) :
  0 < total_absorption →
  rt60_value volume total_absorption = 0.161 * (volume / total_absorption).
Proof. intros H. unfold rt60_value. by rewrite (proj2 (gt_true _ _) H). Qed.

Lemma rt60_value_nonpos (volume total_absorption : Q) :
  total_absorption <= 0 → rt60_value volume total_absorption = 0.
Proof. intros H. unfold rt60_value. by rewrite (proj2 (gt_false _ _) H). Qed.

(** [zip] stops at the shorter sequence: against six areas, the generator
    yields one product per coefficient present, at most six. *)
Lemma total_absorption_wall_sum (a0 a1 a2 a3 a4 a5 : Q) (coeffs : list Q) :
  total_absorption_of [a0; a1; a2; a3; a4; a5] coeffs
  == wall_sum [a0; a1; a2; a3; a4; a5] coeffs.
Proof.
  unfold total_absorption_of, wall_sum, Py.sum.
  destruct coeffs as [|c0 [|c1 [|c2 [|c3 [|c4 [|c5 rest]]]]]]; simpl; ring.
Qed.

(** With six coefficients every wall is paired: coefficient [i] multiplies
    area [i]. *)
Lemma total_absorption_six (a0 a1 a2 a3 a4 a5 c0 c1 c2 c3 c4 c5 : Q) :
  total_absorption_of [a0; a1; a2; a3; a4; a5] [c0; c1; c2; c3; c4; c5]
  == a0 * c0 + a1 * c1 + a2 * c2 + a3 * c3 + a4 * c4 + a5 * c5.
Proof. unfold total_absorption_of, Py.sum. simpl. ring. Qed.

Lemma compute_surface_areas_ok (l w h : Q) (areas : list Q) :
  compute_surface_areas [l; w; h] = Ok areas →
  areas = [l * w; l * w; l * h; l * h; w * h; w * h].
Proof. unfold compute_surface_areas. simpl. by intros [= <-]. Qed.

(** ** Claims about the RT60 calculation *)

(** C1.  For dimensions [l], [w], [h] and a band with six coefficients whose
    total absorption (the sum over the six walls of area times coefficient,
    the areas being those of [compute_surface_areas]) is positive,
    [calculate_rt60] returns for that band [0.161 * (l*w*h) / total].  The
    dimensions need not be positive for this. *)
Theorem calculate_rt60_sabine (l w h : Q) (abs_coeff : gmap string (list Q))
    (band : string) (coeffs areas : list Q) :
  compute_surface_areas [l; w; h] = Ok areas →
  abs_coeff !! band = Some coeffs →
  length coeffs = 6%nat →
  0 < wall_sum areas coeffs →
  ∃ res r, calculate_rt60 [l; w; h] abs_coeff = Ok res
           ∧ res !! band = Some r
           ∧ r == 0.161 * (l * w * h) / wall_sum areas coeffs.
Proof.
  intros Ha Hband _ Hpos. apply compute_surface_areas_ok in Ha as ->.
  pose proof (total_absorption_wall_sum (l * w) (l * w) (l * h) (l * h)
                (w * h) (w * h) coeffs) as Htot.
  eexists _, _. split; [apply calculate_rt60_unfold|].
  split; [by rewrite lookup_fmap, Hband|].
  rewrite rt60_value_pos by (by rewrite Htot).
  rewrite Htot. field. intros H0. rewrite H0 in Hpos. by apply Qlt_irrefl in Hpos.
Qed.

Lemma calculate_rt60_sabine_witness :
  ∃ res r,
    calculate_rt60 [5; 4; 3] {[ "low"%string := [0.1; 0.1; 0.1; 0.1; 0.1; 0.1] ]} = Ok res
    ∧ res !! "low"%string = Some r
    ∧ r == 0.161 * (5 * 4 * 3) / wall_sum [5 * 4; 5 * 4; 5 * 3; 5 * 3; 4 * 3; 4 * 3]
                                     [0.1; 0.1; 0.1; 0.1; 0.1; 0.1].
Proof.
  apply (calculate_rt60_sabine 5 4 3
           {[ "low"%string := [0.1; 0.1; 0.1; 0.1; 0.1; 0.1] ]} "low"
           [0.1; 0.1; 0.1; 0.1; 0.1; 0.1]);
    [reflexivity | reflexivity | reflexivity | vm_compute; reflexivity].
Defined.

(** C2 (as stated: first wall [width*height], last wall [length*width]) fails
    at [room_dims = (1, 2, 3)]: the code returns [(2, 2, 3, 3, 6, 6)], the
    claim announces [(6, 6, 3, 3, 2, 2)]. *)
Lemma compute_surface_areas_order_counterexample :
  compute_surface_areas [1; 2; 3] = Ok [1 * 2; 1 * 2; 1 * 3; 1 * 3; 2 * 3; 2 * 3]
  ∧ ¬ Forall2 Qeq [1 * 2; 1 * 2; 1 * 3; 1 * 3; 2 * 3; 2 * 3]
                  [2 * 3; 2 * 3; 1 * 3; 1 * 3; 1 * 2; 1 * 2].
Proof.
  split; [reflexivity|].
  intros H. apply Forall2_cons_1 in H as [H _]. vm_compute in H. discriminate H.
Qed.

(** C2, amended.  [compute_surface_areas] returns the six areas in the order
    floor, ceiling, front, back, left, right: [(l*w, l*w, l*h, l*h, w*h, w*h)];
    walls come in pairs of equal area, each area the product of two of the
    dimensions, and the i-th coefficient of a band is multiplied with the i-th
    area of that order. *)
Theorem compute_surface_areas_order (l w h : Q) :
  compute_surface_areas [l; w; h] = Ok [l * w; l * w; l * h; l * h; w * h; w * h]
  ∧ ∀ c0 c1 c2 c3 c4 c5 : Q,
      total_absorption_of [l * w; l * w; l * h; l * h; w * h; w * h]
                          [c0; c1; c2; c3; c4; c5]
      == l * w * c0 + l * w * c1 + l * h * c2 + l * h * c3 + w * h * c4 + w * h * c5.
Proof.
  split; [reflexivity|]. intros. apply total_absorption_six.
Qed.

(** C3.  The six areas returned by [compute_surface_areas] add up to
    [2 * (l*w + l*h + w*h)], for all dimensions (positive or not). *)
Theorem surface_areas_sum (l w h : Q) :
  ∃ areas, compute_surface_areas [l; w; h] = Ok areas
           ∧ length areas = 6%nat
           ∧ Py.sum areas == 2 * (l * w + l * h + w * h).
Proof.
  eexists. split; [reflexivity|]. split; [reflexivity|].
  unfold Py.sum. simpl. ring.
Qed.

Lemma Ok_not_raises {A : Type} (m : result A) (a : A) : m = Ok a → ¬ raises m.
Proof. intros -> [e He]. discriminate He. Qed.

(** C4 (as stated) fails for the band [low = (1.5, 0.1, 0.1, 0.1, 0.1, 0.1)]
    in a 5 x 4 x 3 room: nothing is raised, and the coefficient 1.5 enters
    the total absorption as it is. *)
Lemma calculate_rt60_range_counterexample :
  ¬ raises (calculate_rt60 [5; 4; 3]
              {[ "low"%string := [1.5; 0.1; 0.1; 0.1; 0.1; 0.1] ]})
  ∧ ∃ res r,
      calculate_rt60 [5; 4; 3]
        {[ "low"%string := [1.5; 0.1; 0.1; 0.1; 0.1; 0.1] ]} = Ok res
      ∧ res !! "low"%string = Some r
      ∧ r == 0.161 * 60 / (20 * 1.5 + 20 * 0.1 + 15 * 0.1 + 15 * 0.1 + 12 * 0.1 + 12 * 0.1).
Proof.
  split; [eapply Ok_not_raises, calculate_rt60_unfold|].
  eexists _, _. split; [apply calculate_rt60_unfold|].
  split; [by rewrite lookup_fmap, lookup_singleton_eq|].
  vm_compute. reflexivity.
Qed.

(** C4, amended.  [calculate_rt60] checks no coefficient against [0,1]: for
    every band of six coefficients, whatever their values, it returns, and
    the band's value is computed from the total absorption
    [l*w*c0 + l*w*c1 + l*h*c2 + l*h*c3 + w*h*c4 + w*h*c5] with the
    coefficients exactly as given. *)
Theorem calculate_rt60_no_range_check (l w h : Q) (abs_coeff : gmap string (list Q))
    (band : string) (c0 c1 c2 c3 c4 c5 : Q) :
  abs_coeff !! band = Some [c0; c1; c2; c3; c4; c5] →
  ∃ res total,
    calculate_rt60 [l; w; h] abs_coeff = Ok res
    ∧ total == l * w * c0 + l * w * c1 + l * h * c2 + l * h * c3
               + w * h * c4 + w * h * c5
    ∧ res !! band = Some (rt60_value (l * w * h) total).
Proof.
  intros Hband. eexists _, _. split; [apply calculate_rt60_unfold|].
  split; [|by rewrite lookup_fmap, Hband].
  apply total_absorption_six.
Qed.

Lemma calculate_rt60_no_range_check_witness :
  ∃ res total,
    calculate_rt60 [5; 4; 3] {[ "low"%string := [1.5; -2; 0.1; 0.1; 0.1; 0.1] ]} = Ok res
    ∧ total == 5 * 4 * 1.5 + 5 * 4 * -2 + 5 * 3 * 0.1 + 5 * 3 * 0.1
               + 4 * 3 * 0.1 + 4 * 3 * 0.1
    ∧ res !! "low"%string = Some (rt60_value (5 * 4 * 3) total).
Proof.
  apply (calculate_rt60_no_range_check 5 4 3
           {[ "low"%string := [1.5; -2; 0.1; 0.1; 0.1; 0.1] ]} "low"
           1.5 (-2) 0.1 0.1 0.1 0.1).
  reflexivity.
Defined.

(** C5 (as stated) fails for the band [low = (0.1, 0.1, 0.1)], three
    coefficients, in a 5 x 4 x 3 room: nothing is raised; the three
    coefficients are paired with the first three areas and the other three
    walls are left out of the sum. *)
Lemma calculate_rt60_count_counterexample :
  ¬ raises (calculate_rt60 [5; 4; 3] {[ "low"%string := [0.1; 0.1; 0.1] ]})
  ∧ ∃ res r,
      calculate_rt60 [5; 4; 3] {[ "low"%string := [0.1; 0.1; 0.1] ]} = Ok res
      ∧ res !! "low"%string = Some r
      ∧ r == 0.161 * 60 / (20 * 0.1 + 20 * 0.1 + 15 * 0.1).
Proof.
  split; [eapply Ok_not_raises, calculate_rt60_unfold|].
  eexists _, _. split; [apply calculate_rt60_unfold|].
  split; [by rewrite lookup_fmap, lookup_singleton_eq|].
  vm_compute. reflexivity.
Qed.

(** C5, amended.  [calculate_rt60] checks no coefficient count: for a band
    with any number of coefficients it returns, and [zip] pairs coefficient
    [i] with area [i] for as long as both exist, so that the band's total
    absorption is [wall_sum]: the walls past the last coefficient add
    nothing and the coefficients past the sixth are not read. *)
Theorem calculate_rt60_no_count_check (l w h : Q) (abs_coeff : gmap string (list Q))
    (band : string) (coeffs : list Q) :
  abs_coeff !! band = Some coeffs →
  ∃ res total,
    calculate_rt60 [l; w; h] abs_coeff = Ok res
    ∧ total == wall_sum [l * w; l * w; l * h; l * h; w * h; w * h] coeffs
    ∧ total == wall_sum [l * w; l * w; l * h; l * h; w * h; w * h] (take 6 coeffs)
    ∧ res !! band = Some (rt60_value (l * w * h) total).
Proof.
  intros Hband. eexists _, _. split; [apply calculate_rt60_unfold|].
  split; [apply total_absorption_wall_sum|].
  split; [|by rewrite lookup_fmap, Hband].
  rewrite total_absorption_wall_sum. unfold wall_sum.
  destruct coeffs as [|c0 [|c1 [|c2 [|c3 [|c4 [|c5 rest]]]]]]; simpl; ring.
Qed.

Lemma calculate_rt60_no_count_check_witness :
  ∃ res total,
    calculate_rt60 [5; 4; 3] {[ "low"%string := [0.1; 0.2; 0.3; 0.4; 0.5; 0.6; 0.7; 0.8] ]}
      = Ok res
    ∧ total == wall_sum [5 * 4; 5 * 4; 5 * 3; 5 * 3; 4 * 3; 4 * 3]
                 [0.1; 0.2; 0.3; 0.4; 0.5; 0.6; 0.7; 0.8]
    ∧ total == wall_sum [5 * 4; 5 * 4; 5 * 3; 5 * 3; 4 * 3; 4 * 3]
                 (take 6 [0.1; 0.2; 0.3; 0.4; 0.5; 0.6; 0.7; 0.8])
    ∧ res !! "low"%string = Some (rt60_value (5 * 4 * 3) total).
Proof.
  apply (calculate_rt60_no_count_check 5 4 3
           {[ "low"%string := [0.1; 0.2; 0.3; 0.4; 0.5; 0.6; 0.7; 0.8] ]} "low"
           [0.1; 0.2; 0.3; 0.4; 0.5; 0.6; 0.7; 0.8]).
  reflexivity.
Defined.

(** C6 (as stated) fails at [room_dims = (-1, 2, 3)]: a volume and six areas
    are returned, and [calculate_rt60] returns a value for the band. *)
Lemma geometry_counterexample :
  compute_room_volume [-1; 2; 3] = Ok (-1 * 2 * 3)
  ∧ compute_surface_areas [-1; 2; 3]
    = Ok [-1 * 2; -1 * 2; -1 * 3; -1 * 3; 2 * 3; 2 * 3]
  ∧ ¬ raises (calculate_rt60 [-1; 2; 3]
                {[ "low"%string := [0.1; 0.1; 0.1; 0.1; 0.1; 0.1] ]}).
Proof.
  split; [reflexivity|]. split; [reflexivity|].
  eapply Ok_not_raises, calculate_rt60_unfold.
Qed.

(** C6, amended.  The geometry functions of main.py check no dimension: for
    every three numbers, of any sign, [compute_room_volume] returns their
    product, [compute_surface_areas] returns the six pairwise products, and
    [calculate_rt60] returns a dict with one value per band. *)
Theorem geometry_unchecked (l w h : Q) (abs_coeff : gmap string (list Q)) :
  compute_room_volume [l; w; h] = Ok (l * w * h)
  ∧ compute_surface_areas [l; w; h] = Ok [l * w; l * w; l * h; l * h; w * h; w * h]
  ∧ ∃ res, calculate_rt60 [l; w; h] abs_coeff = Ok res ∧ dom res = dom abs_coeff.
Proof.
  split; [reflexivity|]. split; [reflexivity|].
  eexists. split; [apply calculate_rt60_unfold|]. apply dom_fmap_L.
Qed.

(** C9.  A band whose total absorption (the sum of area times coefficient
    over the pairs [zip] yields) is [<= 0] gets the value [0]: the call
    returns, no division is attempted, and every other band has the value it
    has when this band is absent from [abs_coeff]. *)
Theorem calculate_rt60_zero_absorption (l w h : Q) (abs_coeff : gmap string (list Q))
    (band : string) (coeffs areas : list Q) :
  compute_surface_areas [l; w; h] = Ok areas →
  abs_coeff !! band = Some coeffs →
  total_absorption_of areas coeffs <= 0 →
  ∃ res res',
    calculate_rt60 [l; w; h] abs_coeff = Ok res
    ∧ res !! band = Some 0
    ∧ calculate_rt60 [l; w; h] (delete band abs_coeff) = Ok res'
    ∧ ∀ band', band' ≠ band → res !! band' = res' !! band'.
Proof.
  intros Ha Hband Hle. apply compute_surface_areas_ok in Ha as ->.
  eexists _, _. split; [apply calculate_rt60_unfold|].
  split; [by rewrite lookup_fmap, Hband; simpl; rewrite rt60_value_nonpos|].
  split; [apply calculate_rt60_unfold|].
  intros band' Hne. by rewrite !lookup_fmap, lookup_delete_ne.
Qed.

Lemma calculate_rt60_zero_absorption_witness :
  ∃ res res',
    calculate_rt60 [5; 4; 3]
      {[ "low"%string := [0; 0; 0; 0; 0; 0]; "mid"%string := [0.1; 0.1; 0.1; 0.1; 0.1; 0.1] ]}
      = Ok res
    ∧ res !! "low"%string = Some 0
    ∧ calculate_rt60 [5; 4; 3]
        (delete "low"%string
           {[ "low"%string := [0; 0; 0; 0; 0; 0];
              "mid"%string := [0.1; 0.1; 0.1; 0.1; 0.1; 0.1] ]}) = Ok res'
    ∧ ∀ band', band' ≠ "low"%string → res !! band' = res' !! band'.
Proof.
  apply (calculate_rt60_zero_absorption 5 4 3
           {[ "low"%string := [0; 0; 0; 0; 0; 0];
              "mid"%string := [0.1; 0.1; 0.1; 0.1; 0.1; 0.1] ]} "low"
           [0; 0; 0; 0; 0; 0] [5 * 4; 5 * 4; 5 * 3; 5 * 3; 4 * 3; 4 * 3]);
    [reflexivity | reflexivity | vm_compute; discriminate].
Defined.

(** ** The energy of the decay plot *)

Lemma running_length (acc : Q) (xs : list Q) : length (Np.running acc xs) = length xs.
Proof. revert acc. induction xs as [|x xs IH]; intros acc; simpl; [done|]. by rewrite IH. Qed.

Lemma cumsum_length (xs : list Q) : length (Np.cumsum xs) = length xs.
Proof. destruct xs as [|x xs]; simpl; [done|]. by rewrite running_length. Qed.

Lemma running_lookup (acc : Q) (xs : list Q) (i : nat) (v : Q) :
  Np.running acc xs !! i = Some v → v == acc + Py.sum (take (S i) xs).
Proof.
  revert acc i. induction xs as [|x xs IH]; intros acc i; [done|].
  destruct i as [|i]; simpl.
  - intros [= <-]. rewrite take_0, sum_cons. unfold Py.sum; simpl. lra.
  - intros Hi. apply IH in Hi. rewrite Hi, (sum_cons x). lra.
Qed.

(** [np.cumsum(xs)[i] = xs[0] + ... + xs[i]] *)
Lemma cumsum_lookup (xs : list Q) (i : nat) (v : Q) :
  Np.cumsum xs !! i = Some v → v == Py.sum (take (S i) xs).
Proof.
  destruct xs as [|x xs]; [done|].
  destruct i as [|i]; simpl.
  - intros [= <-]. rewrite take_0. unfold Py.sum; simpl. lra.
  - intros Hi. apply running_lookup in Hi. by rewrite sum_cons.
Qed.

(** What line 72 computes: the entry at index [t] is the sum of the squares
    of the FIRST [n - t] samples, [a[0]^2 + ... + a[n-1-t]^2]. *)
Lemma decay_energy_lookup (a : list Q) (t : nat) :
  (t < length a)%nat →
  ∃ v, decay_energy a !! t = Some v
       ∧ v == Py.sum (Np.square (take (length a - t) a)).
Proof.
  intros Ht. unfold decay_energy.
  assert (Hlen : length (Np.cumsum (Np.square a)) = length a)
    by (by rewrite cumsum_length; unfold Np.square; rewrite length_fmap).
  rewrite reverse_lookup by lia. rewrite Hlen.
  destruct (lookup_lt_is_Some_2 (Np.cumsum (Np.square a)) (length a - S t))
    as [v Hv]; [lia|].
  exists v. split; [done|].
  apply cumsum_lookup in Hv. rewrite Hv.
  unfold Np.square. rewrite fmap_take.
  by replace (S (length a - S t)) with (length a - t)%nat by lia.
Qed.

(** What the specification describes: the entry at index [t] is the sum of
    the squares of the samples from [t] on. *)
Lemma backward_energy_spec_lookup (a : list Q) (t : nat) :
  (t < length a)%nat →
  ∃ v, backward_energy_spec a !! t = Some v
       ∧ v == Py.sum (Np.square (drop t a)).
Proof.
  revert t. induction a as [|x a IH]; intros t Ht; simpl in Ht; [lia|].
  destruct t as [|t]; simpl.
  - eexists. split; [done|]. unfold Np.square. simpl. by rewrite sum_cons.
  - apply IH. lia.
Qed.

(** C7.  At the response [a = (1, 2)] the energy array of line 72 is
    [(5, 1)], while the cumulative sum from the end of the squares is
    [(5, 4)]: at [t = 1] the code holds [a[0]^2 = 1], the claim announces
    [a[1]^2 = 4]. *)
Theorem decay_energy_failing_input :
  Forall2 Qeq (decay_energy [1; 2]) [5; 1]
  ∧ Forall2 Qeq (backward_energy_spec [1; 2]) [5; 4]
  ∧ ∃ v, decay_energy [1; 2] !! 1%nat = Some v ∧ v == 1 ^ 2 ∧ ¬ v == 2 ^ 2.
Proof.
  split; [|split].
  - repeat constructor.
  - repeat constructor.
  - eexists. split; [reflexivity|]. split; [reflexivity|].
    intros H. vm_compute in H. discriminate H.
Qed.

(** ** The store-passing calculation refines the pure one *)


Lemma run_bind {A B : Type} (m : Store.M A) (f : A → Store.M B)
    (σ σ' : Store.heap) (a : A) (r : result (B * Store.heap)) :
  m σ = Ok (a, σ') → f a σ' = r → (m ≫= f) σ = r.
Proof. intros Hm Hf. unfold mbind, Store.M_bind. by rewrite Hm. Qed.

Lemma read_list_run (σ : Store.heap) (l : Store.loc) (xs : list Q) :
  σ !! l = Some (Store.PyList xs) → Store.read_list l σ = Ok (xs, σ).
Proof. intros H. unfold Store.read_list. by rewrite H. Qed.

Lemma compute_room_volume_run (σ : Store.heap) (room_dims : Store.loc) (l w h : Q) :
  σ !! room_dims = Some (Store.PyList [l; w; h]) →
  Store.compute_room_volume room_dims σ = Ok (l * w * h, σ).
Proof.
  intros H. unfold Store.compute_room_volume.
  eapply run_bind; [by apply read_list_run|]. done.
Qed.

Lemma compute_surface_areas_run (σ : Store.heap) (room_dims : Store.loc) (l w h : Q) :
  σ !! room_dims = Some (Store.PyList [l; w; h]) →
  Store.compute_surface_areas room_dims σ
  = Ok (fresh (dom σ),
        <[fresh (dom σ) := Store.PyList [l * w; l * w; l * h; l * h; w * h; w * h]]> σ).
Proof.
  intros H. unfold Store.compute_surface_areas.
  eapply run_bind; [by apply read_list_run|]. done.
Qed.

(** One pass of the loop of [Store.calculate_rt60] over [items], started with
    [m] in [rt60_results]: it only rewrites the object at [rt60_results], and
    the dict it leaves there is the one the pure loop builds. *)
Lemma store_loop_sim (σ : Store.heap) (surface_areas rt60_results : Store.loc)
    (areas : list Q) (volume : Q) (items : list (string * Store.loc)) (m : gmap string Q) :
  surface_areas ≠ rt60_results →
  σ !! surface_areas = Some (Store.PyList areas) →
  σ !! rt60_results = None →
  (∀ k lc, (k, lc) ∈ items → ∃ cs, σ !! lc = Some (Store.PyList cs)) →
  Store.for_each items (λ '(band, coeffs),
    areas ← Store.read_list surface_areas;
    alphas ← Store.read_list coeffs;
    let total_absorption := total_absorption_of areas alphas in
    rt60 ← Store.lift (rt60_of volume total_absorption);
    Store.setitem rt60_results band rt60) (<[rt60_results := Store.PyNumDict m]> σ)
  = m' ← Py.for_each items m (λ '(band, coeffs) acc,
            v ← match σ !! coeffs with
                | Some (Store.PyList cs) => rt60_of volume (total_absorption_of areas cs)
                | _ => Raise TypeError
                end;
            Ok (<[band := v]> acc));
    Ok ((), <[rt60_results := Store.PyNumDict m']> σ).
Proof.
  intros Hne Hareas Hfresh. revert m.
  induction items as [|[band coeffs] items IH]; intros m Hwf; [done|].
  destruct (Hwf band coeffs) as [cs Hcs]; [left|].
  assert (coeffs ≠ rt60_results) as Hcne by congruence.
  cbn [Store.for_each Py.for_each].
  unfold mbind at 1, Store.M_bind at 1.
  unfold mbind at 1, Store.M_bind at 1, Store.read_list at 1.
  rewrite lookup_insert_ne, Hareas by done.
  unfold mbind at 1, Store.M_bind at 1, Store.read_list at 1.
  rewrite lookup_insert_ne, Hcs by done.
  cbn zeta. rewrite !rt60_of_ok.
  unfold mbind at 1, Store.M_bind at 1, Store.lift at 1, Store.setitem at 1.
  rewrite lookup_insert_eq, insert_insert_eq.
  rewrite IH by (intros k lc Hin; apply (Hwf k lc); by right).
  done.
Qed.

(** The call allocates two objects ([surface_areas], [rt60_results]), returns
    the second, holding the dict of the pure calculation, and changes no
    object that existed before. *)
Lemma store_calculate_rt60_refines (σ : Store.heap) (room_dims abs_coeff : Store.loc)
    (dims : list Q) (bands : gmap string (list Q)) :
  well_formed σ room_dims abs_coeff dims bands →
  ∃ r σ' res,
    Store.calculate_rt60 room_dims abs_coeff σ = Ok (r, σ')
    ∧ σ !! r = None
    ∧ σ' !! r = Some (Store.PyNumDict res)
    ∧ calculate_rt60 dims bands = Ok res
    ∧ ∀ k, is_Some (σ !! k) → σ' !! k = σ !! k.
Proof.
  intros (Hlen & Hdims & d & Hd & Hwf & <-).
  destruct dims as [|l [|w [|h [|? ?]]]]; try done. clear Hlen.
  set (areas := [l * w; l * w; l * h; l * h; w * h; w * h]).
  set (a1 := fresh (dom σ)).
  set (σ1 := <[a1 := Store.PyList areas]> σ).
  set (a2 := fresh (dom σ1)).
  assert (σ !! a1 = None) as Ha1
    by (apply not_elem_of_dom, is_fresh).
  assert (σ1 !! a2 = None) as Ha2
    by (apply not_elem_of_dom, is_fresh).
  assert (a1 ≠ a2) as Hne.
  { intros Heq. rewrite <- Heq in Ha2. unfold σ1 in Ha2.
    by rewrite lookup_insert_eq in Ha2. }
  assert (σ !! a2 = None) as Ha2'.
  { unfold σ1 in Ha2. by rewrite lookup_insert_ne in Ha2. }
  assert (∀ k, is_Some (σ !! k) → σ1 !! k = σ !! k) as Hframe1.
  { intros k [o Ho]. unfold σ1. rewrite lookup_insert_ne; [done|congruence]. }
  set (g := λ (_ : string) (lc : Store.loc),
         rt60_value (l * w * h)
           (total_absorption_of areas
              match σ1 !! lc with Some (Store.PyList cs) => cs | _ => [] end)).
  destruct (for_each_store
              (λ (_ : string) lc,
                 match σ1 !! lc with
                 | Some (Store.PyList cs) => rt60_of (l * w * h) (total_absorption_of areas cs)
                 | _ => Raise TypeError
                 end) g (map_to_list d) ∅) as (res & Hres & Hlk).
  { intros k lc Hin. apply elem_of_map_to_list in Hin.
    destruct (Hwf k lc Hin) as [cs Hcs]. unfold g.
    rewrite Hframe1, Hcs by eauto. apply rt60_of_ok. }
  { apply NoDup_fst_map_to_list. }
  exists a2, (<[a2 := Store.PyNumDict res]> σ1), res.
  split; [|split; [done|split; [by rewrite lookup_insert_eq|split]]].
  - unfold Store.calculate_rt60.
    eapply run_bind; [by apply compute_room_volume_run|].
    eapply run_bind; [by apply compute_surface_areas_run|].
    fold a1 areas σ1.
    eapply run_bind; [reflexivity|]. fold a2.
    eapply run_bind.
    { unfold Store.dict_items.
      by rewrite lookup_insert_ne, Hframe1, Hd by (eauto; congruence). }
    eapply run_bind; [|reflexivity].
    rewrite (store_loop_sim σ1 a1 a2 areas).
    + by rewrite Hres.
    + done.
    + unfold σ1. by rewrite lookup_insert_eq.
    + done.
    + intros k lc Hin. apply elem_of_map_to_list in Hin.
      destruct (Hwf k lc Hin) as [cs Hcs]. exists cs. rewrite Hframe1; eauto.
  - rewrite calculate_rt60_unfold. f_equal. apply map_eq. intros k.
    rewrite Hlk, list_to_map_to_list, lookup_fmap, lookup_empty.
    unfold Store.view. rewrite lookup_omap.
    destruct (d !! k) as [lc|] eqn:Hk; [|done]. simpl.
    destruct (Hwf k lc Hk) as [cs Hcs]. unfold g.
    by rewrite Hframe1, Hcs by eauto.
  - intros k Hk. rewrite lookup_insert_ne by (destruct Hk; congruence).
    by apply Hframe1.
Qed.

(** Objects that a later heap leaves as they were keep the inputs well
    formed, with the same values. *)
Lemma well_formed_frame (σ σ' : Store.heap) (room_dims abs_coeff : Store.loc)
    (dims : list Q) (bands : gmap string (list Q)) :
  (∀ k, is_Some (σ !! k) → σ' !! k = σ !! k) →
  well_formed σ room_dims abs_coeff dims bands →
  well_formed σ' room_dims abs_coeff dims bands.
Proof.
  intros Hframe (Hlen & Hdims & d & Hd & Hwf & Hview).
  split; [done|]. split; [by rewrite Hframe|].
  exists d. split; [by rewrite Hframe|]. split.
  - intros band lc Hb. destruct (Hwf band lc Hb) as [cs Hcs].
    exists cs. by rewrite Hframe.
  - rewrite <- Hview. apply map_eq. intros k. unfold Store.view.
    rewrite !lookup_omap. destruct (d !! k) as [lc|] eqn:Hk; [|done]. simpl.
    destruct (Hwf k lc Hk) as [cs Hcs]. by rewrite Hframe.
Qed.

(** C10.  Two calls of [calculate_rt60] whose arguments hold equal values
    (in whatever heaps, at whatever addresses) both return, and return dicts
    with equal contents; a call changes no object that existed before it, so
    [room_dims], [abs_coeff] and the coefficient lists hold the same values
    after the call as before. *)
Theorem calculate_rt60_pure (σ1 σ2 : Store.heap)
    (room_dims1 abs_coeff1 room_dims2 abs_coeff2 : Store.loc)
    (dims : list Q) (bands : gmap string (list Q)) :
  well_formed σ1 room_dims1 abs_coeff1 dims bands →
  well_formed σ2 room_dims2 abs_coeff2 dims bands →
  ∃ r1 σ1' r2 σ2' res,
    Store.calculate_rt60 room_dims1 abs_coeff1 σ1 = Ok (r1, σ1')
    ∧ Store.calculate_rt60 room_dims2 abs_coeff2 σ2 = Ok (r2, σ2')
    ∧ σ1' !! r1 = Some (Store.PyNumDict res)
    ∧ σ2' !! r2 = Some (Store.PyNumDict res)
    ∧ (∀ k, is_Some (σ1 !! k) → σ1' !! k = σ1 !! k)
    ∧ (∀ k, is_Some (σ2 !! k) → σ2' !! k = σ2 !! k)
    ∧ well_formed σ1' room_dims1 abs_coeff1 dims bands
    ∧ well_formed σ2' room_dims2 abs_coeff2 dims bands.
Proof.
  intros Hwf1 Hwf2.
  destruct (store_calculate_rt60_refines _ _ _ _ _ Hwf1)
    as (r1 & σ1' & res1 & Hrun1 & _ & Hr1 & Hpure1 & Hframe1).
  destruct (store_calculate_rt60_refines _ _ _ _ _ Hwf2)
    as (r2 & σ2' & res2 & Hrun2 & _ & Hr2 & Hpure2 & Hframe2).
  assert (res2 = res1) as -> by congruence.
  exists r1, σ1', r2, σ2', res1.
  repeat split; try done; by eapply well_formed_frame.
Qed.

Lemma example_heap1_well_formed :
  well_formed example_heap1 1%positive 2%positive [5; 4; 3]
    {[ "low"%string := example_coeffs ]}.
Proof.
  split; [reflexivity|]. split; [reflexivity|].
  exists {[ "low"%string := 3%positive ]}.
  split; [reflexivity|]. split; [|reflexivity].
  intros band lc H. apply lookup_singleton_Some in H as [_ <-]. by eexists.
Defined.

Lemma example_heap2_well_formed :
  well_formed example_heap2 7%positive 9%positive [5; 4; 3]
    {[ "low"%string := example_coeffs ]}.
Proof.
  split; [reflexivity|]. split; [reflexivity|].
  exists {[ "low"%string := 4%positive ]}.
  split; [reflexivity|]. split; [|reflexivity].
  intros band lc H. apply lookup_singleton_Some in H as [_ <-]. by eexists.
Defined.

Lemma calculate_rt60_pure_witness :
  ∃ r1 σ1' r2 σ2' res,
    Store.calculate_rt60 1%positive 2%positive example_heap1 = Ok (r1, σ1')
    ∧ Store.calculate_rt60 7%positive 9%positive example_heap2 = Ok (r2, σ2')
    ∧ σ1' !! r1 = Some (Store.PyNumDict res)
    ∧ σ2' !! r2 = Some (Store.PyNumDict res)
    ∧ (∀ k, is_Some (example_heap1 !! k) → σ1' !! k = example_heap1 !! k)
    ∧ (∀ k, is_Some (example_heap2 !! k) → σ2' !! k = example_heap2 !! k)
    ∧ well_formed σ1' 1%positive 2%positive [5; 4; 3] {[ "low"%string := example_coeffs ]}
    ∧ well_formed σ2' 7%positive 9%positive [5; 4; 3] {[ "low"%string := example_coeffs ]}.
Proof.
  exact (calculate_rt60_pure example_heap1 example_heap2 1 2 7 9 [5; 4; 3]
           {[ "low"%string := example_coeffs ]}
           example_heap1_well_formed example_heap2_well_formed).
Defined.

(** ** Claim about the facade *)

(** C8.  On a configuration that passes validation (positive dimensions, six
    coefficients in [0,1] per band, at least one source and one receiver,
    positions inside the room), [image_source_method] returns a dict whose
    keys are the band names, and each band's value is a sequence with
    exactly one response per receiver, the response at index [i] being that
    of the [i]-th receiver of the configuration. *)
Theorem image_source_method_shape (buffer_length : nat)
    (contribution : Acoustics.SimulationConfig → bool → string →
                    Q * Q * Q → Q * Q * Q → list Q)
    (config : Acoustics.SimulationConfig) (enhanced : bool) :
  Acoustics.validate config = None →
  ∃ responses,
    Acoustics.image_source_method buffer_length contribution config enhanced
      = inr responses
    ∧ dom responses = dom (Acoustics.abs_coeff config)
    ∧ ∀ band, band ∈ dom (Acoustics.abs_coeff config) →
        ∃ rs, responses !! band = Some rs
              ∧ length rs = length (Acoustics.receiver_positions config)
              ∧ ∀ i receiver,
                  Acoustics.receiver_positions config !! i = Some receiver →
                  rs !! i = Some (Acoustics.response buffer_length contribution
                                    config enhanced band receiver).
Proof.
  intros Hvalid. unfold Acoustics.image_source_method. rewrite Hvalid.
  eexists. split; [reflexivity|]. split.
  - apply set_eq. intros band. rewrite !elem_of_dom, map_lookup_imap.
    destruct (Acoustics.abs_coeff config !! band); simpl;
      split; intros [? ?]; eauto; done.
  - intros band [coeffs Hband]%elem_of_dom.
    eexists. split; [by rewrite map_lookup_imap, Hband|].
    split; [by rewrite length_fmap|].
    intros i receiver Hi. by rewrite list_lookup_fmap, Hi.
Qed.

Lemma image_source_method_shape_witness :
  ∃ responses,
    Acoustics.image_source_method 4 example_contribution example_config true
      = inr responses
    ∧ dom responses = dom (Acoustics.abs_coeff example_config)
    ∧ ∀ band, band ∈ dom (Acoustics.abs_coeff example_config) →
        ∃ rs, responses !! band = Some rs
              ∧ length rs = length (Acoustics.receiver_positions example_config)
              ∧ ∀ i receiver,
                  Acoustics.receiver_positions example_config !! i = Some receiver →
                  rs !! i = Some (Acoustics.response 4 example_contribution
                                    example_config true band receiver).
Proof.
  apply (image_source_method_shape 4 example_contribution example_config true).
  vm_compute. reflexivity.
Defined.

(** * Further properties of the code *)

(** ** The RT60 calculation: failures, signs, monotonicity, scaling *)

(** [rt60_value] sees its arguments as numbers. *)
Lemma rt60_value_proper (v v' t t' : Q) :
  v == v' → t == t' → rt60_value v t == rt60_value v' t'.
Proof.
  intros Hv Ht. unfold rt60_value, Py.gt.
  rewrite (Qleb_comp _ _ Ht 0 0 (Qeq_refl 0)).
  destruct (Qle_bool t' 0); simpl; [reflexivity|]. by rewrite Hv, Ht.
Qed.

Lemma total_absorption_nil_l (coeffs : list Q) : total_absorption_of [] coeffs = 0.
Proof. done. Qed.

Lemma total_absorption_nil_r (areas : list Q) : total_absorption_of areas [] = 0.
Proof. by destruct areas. Qed.

Lemma total_absorption_cons (a c : Q) (areas coeffs : list Q) :
  total_absorption_of (a :: areas) (c :: coeffs)
  == a * c + total_absorption_of areas coeffs.
Proof. unfold total_absorption_of. simpl. apply sum_cons. Qed.

(** More absorbent walls, more absorption: with areas [>= 0], raising
    coefficients raises the total. *)
Lemma total_absorption_mono (areas coeffs coeffs' : list Q) :
  Forall (Qle 0) areas →
  Forall2 Qle coeffs coeffs' →
  total_absorption_of areas coeffs <= total_absorption_of areas coeffs'.
Proof.
  intros Hareas. revert coeffs coeffs'.
  induction Hareas as [|a areas Ha Hareas IH]; intros coeffs coeffs' Hle.
  - rewrite !total_absorption_nil_l. apply Qle_refl.
  - destruct Hle as [|c c' coeffs coeffs' Hc Hle].
    + rewrite !total_absorption_nil_r. apply Qle_refl.
    + rewrite !total_absorption_cons. specialize (IH _ _ Hle). nra.
Qed.

Lemma surface_areas_nonneg (l w h : Q) :
  0 <= l → 0 <= w → 0 <= h →
  Forall (Qle 0) [l * w; l * w; l * h; l * h; w * h; w * h].
Proof. intros. repeat constructor; by apply Qmult_le_0_compat. Qed.

Lemma rt60_value_nonneg (v t : Q) : 0 <= v → 0 <= rt60_value v t.
Proof.
  intros Hv. unfold rt60_value. destruct (Py.gt t 0) eqn:E; [|apply Qle_refl].
  apply gt_true in E.
  apply Qmult_le_0_compat; [done|].
  apply Qmult_le_0_compat; [done|]. apply Qinv_le_0_compat. by apply Qlt_le_weak.
Qed.

Lemma rt60_value_antitone (v t t' : Q) :
  0 <= v → 0 < t → t <= t' → rt60_value v t' <= rt60_value v t.
Proof.
  intros Hv Ht Hle.
  assert (0 < t') as Ht' by (eapply Qlt_le_trans; eauto).
  rewrite !rt60_value_pos by done.
  apply Qmult_le_l; [done|].
  apply Qle_shift_div_r; [done|].
  assert (0 <= v / t) as Hq
    by (apply Qmult_le_0_compat; [done|]; by apply Qinv_le_0_compat, Qlt_le_weak).
  assert (v == v / t * t) as Hvt by (field; intros H0; rewrite H0 in Ht; by apply Qlt_irrefl in Ht).
  rewrite Hvt at 1. nra.
Qed.



(** X3.  In a room of positive dimensions no reverberation time is negative,
    and a band's time is positive exactly when its total absorption is. *)
Theorem calculate_rt60_sign (l w h : Q) (abs_coeff : gmap string (list Q))
    (band : string) (coeffs : list Q) :
  0 < l → 0 < w → 0 < h →
  abs_coeff !! band = Some coeffs →
  ∃ res r,
    calculate_rt60 [l; w; h] abs_coeff = Ok res
    ∧ res !! band = Some r
    ∧ 0 <= r
    ∧ (0 < r ↔ 0 < total_absorption_of
                     [l * w; l * w; l * h; l * h; w * h; w * h] coeffs).
Proof.
  intros Hl Hw Hh Hband.
  assert (0 < l * w * h) as Hv by (by repeat apply Qmult_lt_0_compat).
  eexists _, _. split; [apply calculate_rt60_unfold|].
  split; [by rewrite lookup_fmap, Hband|].
  split; [by apply rt60_value_nonneg, Qlt_le_weak|].
  set (t := total_absorption_of _ coeffs). split.
  - intros Hr. destruct (Qlt_le_dec 0 t) as [|Hle]; [done|].
    rewrite rt60_value_nonpos in Hr by done. by apply Qlt_irrefl in Hr.
  - intros Ht. rewrite rt60_value_pos by done.
    apply Qmult_lt_0_compat; [done|].
    apply Qlt_shift_div_l; [done|]. by rewrite Qmult_0_l.
Qed.

Lemma calculate_rt60_sign_witness :
  ∃ res r,
    calculate_rt60 [5; 4; 3] {[ "low"%string := [0.1; 0.1; 0.1; 0.1; 0.1; 0.1] ]} = Ok res
    ∧ res !! "low"%string = Some r
    ∧ 0 <= r
    ∧ (0 < r ↔ 0 < total_absorption_of
                     [5 * 4; 5 * 4; 5 * 3; 5 * 3; 4 * 3; 4 * 3]
                     [0.1; 0.1; 0.1; 0.1; 0.1; 0.1]).
Proof.
  apply (calculate_rt60_sign 5 4 3
           {[ "low"%string := [0.1; 0.1; 0.1; 0.1; 0.1; 0.1] ]} "low"
           [0.1; 0.1; 0.1; 0.1; 0.1; 0.1]);
    reflexivity.
Defined.

(** X4.  More absorption, shorter reverberation: in a room of dimensions
    [>= 0], if the coefficients of one band are, wall by wall, at most those
    of another, and the first band's total absorption is positive, then the
    second band's reverberation time is at most the first's. *)
Theorem calculate_rt60_antitone (l w h : Q) (abs_coeff : gmap string (list Q))
    (band band' : string) (coeffs coeffs' : list Q) :
  0 <= l → 0 <= w → 0 <= h →
  abs_coeff !! band = Some coeffs →
  abs_coeff !! band' = Some coeffs' →
  Forall2 Qle coeffs coeffs' →
  0 < total_absorption_of [l * w; l * w; l * h; l * h; w * h; w * h] coeffs →
  ∃ res r r',
    calculate_rt60 [l; w; h] abs_coeff = Ok res
    ∧ res !! band = Some r
    ∧ res !! band' = Some r'
    ∧ r' <= r.
Proof.
  intros Hl Hw Hh Hband Hband' Hle Hpos.
  eexists _, _, _. split; [apply calculate_rt60_unfold|].
  split; [by rewrite lookup_fmap, Hband|].
  split; [by rewrite lookup_fmap, Hband'|].
  apply rt60_value_antitone; [by repeat apply Qmult_le_0_compat|done|].
  apply total_absorption_mono; [by apply surface_areas_nonneg|done].
Qed.

Lemma calculate_rt60_antitone_witness :
  ∃ res r r',
    calculate_rt60 [5; 4; 3]
      {[ "low"%string := [0.1; 0.1; 0.1; 0.1; 0.1; 0.1];
         "high"%string := [0.2; 0.1; 0.3; 0.1; 0.1; 0.5] ]} = Ok res
    ∧ res !! "low"%string = Some r
    ∧ res !! "high"%string = Some r'
    ∧ r' <= r.
Proof.
  apply (calculate_rt60_antitone 5 4 3
           {[ "low"%string := [0.1; 0.1; 0.1; 0.1; 0.1; 0.1];
              "high"%string := [0.2; 0.1; 0.3; 0.1; 0.1; 0.5] ]} "low" "high"
           [0.1; 0.1; 0.1; 0.1; 0.1; 0.1] [0.2; 0.1; 0.3; 0.1; 0.1; 0.5]);
    try reflexivity; try (vm_compute; discriminate).
  repeat constructor; vm_compute; discriminate.
Defined.

(** X5.  Sabine's time scales with the room: multiplying the three
    dimensions by [k > 0] multiplies every band's reverberation time by [k]
    (the volume grows as [k^3], the areas as [k^2]). *)
Theorem calculate_rt60_scaling (k l w h : Q) (abs_coeff : gmap string (list Q))
    (band : string) (coeffs : list Q) :
  0 < k →
  abs_coeff !! band = Some coeffs →
  ∃ res res' r r',
    calculate_rt60 [l; w; h] abs_coeff = Ok res
    ∧ calculate_rt60 [k * l; k * w; k * h] abs_coeff = Ok res'
    ∧ res !! band = Some r
    ∧ res' !! band = Some r'
    ∧ r' == k * r.
Proof.
  intros Hk Hband.
  eexists _, _, _, _. split; [apply calculate_rt60_unfold|].
  split; [apply calculate_rt60_unfold|].
  split; [by rewrite lookup_fmap, Hband|].
  split; [by rewrite lookup_fmap, Hband|].
  set (t := total_absorption_of [l * w; _; _; _; _; _] coeffs).
  set (t' := total_absorption_of [k * l * (k * w); _; _; _; _; _] coeffs).
  assert (t' == k * k * t) as Ht'.
  { unfold t, t'. rewrite !total_absorption_wall_sum. unfold wall_sum. simpl. ring. }
  assert (0 < k * k) as Hkk by (by apply Qmult_lt_0_compat).
  assert (¬ k == 0) as Hk0 by (intros H0; rewrite H0 in Hk; by apply Qlt_irrefl in Hk).
  destruct (Qlt_le_dec 0 t) as [Ht|Ht].
  - assert (0 < t') as Hpos by (rewrite Ht'; by apply Qmult_lt_0_compat).
    rewrite !rt60_value_pos by done. rewrite Ht'. field.
    split; [|done]. intros H0. rewrite H0 in Ht. by apply Qlt_irrefl in Ht.
  - assert (t' <= 0) as Hle by (rewrite Ht'; nra).
    rewrite !rt60_value_nonpos by done. ring.
Qed.

Lemma calculate_rt60_scaling_witness :
  ∃ res res' r r',
    calculate_rt60 [5; 4; 3] {[ "low"%string := [0.1; 0.2; 0.1; 0.2; 0.1; 0.2] ]} = Ok res
    ∧ calculate_rt60 [2 * 5; 2 * 4; 2 * 3]
        {[ "low"%string := [0.1; 0.2; 0.1; 0.2; 0.1; 0.2] ]} = Ok res'
    ∧ res !! "low"%string = Some r
    ∧ res' !! "low"%string = Some r'
    ∧ r' == 2 * r.
Proof.
  apply (calculate_rt60_scaling 2 5 4 3
           {[ "low"%string := [0.1; 0.2; 0.1; 0.2; 0.1; 0.2] ]} "low"
           [0.1; 0.2; 0.1; 0.2; 0.1; 0.2]);
    reflexivity.
Defined.

(** X6.  With one coefficient [alpha > 0] on all six walls of a room of
    positive dimensions, the reverberation time is Sabine's
    [0.161 * V / (alpha * S)], [S = 2 * (l*w + l*h + w*h)] being the surface
    and [V = l*w*h] the volume of the room. *)
Theorem calculate_rt60_uniform (l w h alpha : Q) (abs_coeff : gmap string (list Q))
    (band : string) :
  0 < l → 0 < w → 0 < h → 0 < alpha →
  abs_coeff !! band = Some [alpha; alpha; alpha; alpha; alpha; alpha] →
  ∃ res r,
    calculate_rt60 [l; w; h] abs_coeff = Ok res
    ∧ res !! band = Some r
    ∧ r == 0.161 * (l * w * h) / (alpha * (2 * (l * w + l * h + w * h))).
Proof.
  intros Hl Hw Hh Halpha Hband.
  eexists _, _. split; [apply calculate_rt60_unfold|].
  split; [by rewrite lookup_fmap, Hband|].
  set (t := total_absorption_of _ _).
  assert (t == alpha * (2 * (l * w + l * h + w * h))) as Ht
    by (unfold t; rewrite total_absorption_six; ring).
  assert (0 < l * w) by (by apply Qmult_lt_0_compat).
  assert (0 < l * h) by (by apply Qmult_lt_0_compat).
  assert (0 < w * h) by (by apply Qmult_lt_0_compat).
  assert (0 < alpha * (2 * (l * w + l * h + w * h))) as Hpos
    by (apply Qmult_lt_0_compat; [done|lra]).
  rewrite rt60_value_pos by (by rewrite Ht). rewrite Ht. field.
  split; intros Hzero.
  - assert (0 < l * w + l * h + w * h) as Hs by lra.
    rewrite Hzero in Hs. by apply Qlt_irrefl in Hs.
  - rewrite Hzero in Halpha. by apply Qlt_irrefl in Halpha.
Qed.

Lemma calculate_rt60_uniform_witness :
  ∃ res r,
    calculate_rt60 [4; 3; 2.5] {[ "mid"%string := [0.3; 0.3; 0.3; 0.3; 0.3; 0.3] ]} = Ok res
    ∧ res !! "mid"%string = Some r
    ∧ r == 0.161 * (4 * 3 * 2.5) / (0.3 * (2 * (4 * 3 + 4 * 2.5 + 3 * 2.5))).
Proof.
  apply (calculate_rt60_uniform 4 3 2.5 0.3
           {[ "mid"%string := [0.3; 0.3; 0.3; 0.3; 0.3; 0.3] ]} "mid");
    reflexivity.
Defined.

(** X7.  Opposite walls have equal areas, so only the sum of the two
    coefficients of a pair counts: two bands whose coefficients have the same
    sums over floor and ceiling, over front and back, and over left and right
    get the same reverberation time; exchanging the coefficients of two
    opposite walls changes nothing. *)
Theorem calculate_rt60_pair_sums (l w h : Q) (abs_coeff : gmap string (list Q))
    (band band' : string) (c0 c1 c2 c3 c4 c5 d0 d1 d2 d3 d4 d5 : Q) :
  abs_coeff !! band = Some [c0; c1; c2; c3; c4; c5] →
  abs_coeff !! band' = Some [d0; d1; d2; d3; d4; d5] →
  c0 + c1 == d0 + d1 → c2 + c3 == d2 + d3 → c4 + c5 == d4 + d5 →
  ∃ res r r',
    calculate_rt60 [l; w; h] abs_coeff = Ok res
    ∧ res !! band = Some r
    ∧ res !! band' = Some r'
    ∧ r == r'.
Proof.
  intros Hband Hband' H01 H23 H45.
  eexists _, _, _. split; [apply calculate_rt60_unfold|].
  split; [by rewrite lookup_fmap, Hband|].
  split; [by rewrite lookup_fmap, Hband'|].
  apply rt60_value_proper; [reflexivity|].
  rewrite !total_absorption_six.
  transitivity (l * w * (c0 + c1) + l * h * (c2 + c3) + w * h * (c4 + c5)); [ring|].
  rewrite H01, H23, H45. ring.
Qed.

Lemma calculate_rt60_pair_sums_witness :
  ∃ res r r',
    calculate_rt60 [5; 4; 3]
      {[ "low"%string := [0.1; 0.5; 0.2; 0.3; 0.4; 0.6];
         "mid"%string := [0.5; 0.1; 0.3; 0.2; 0.6; 0.4] ]} = Ok res
    ∧ res !! "low"%string = Some r
    ∧ res !! "mid"%string = Some r'
    ∧ r == r'.
Proof.
  apply (calculate_rt60_pair_sums 5 4 3
           {[ "low"%string := [0.1; 0.5; 0.2; 0.3; 0.4; 0.6];
              "mid"%string := [0.5; 0.1; 0.3; 0.2; 0.6; 0.4] ]} "low" "mid"
           0.1 0.5 0.2 0.3 0.4 0.6 0.5 0.1 0.3 0.2 0.6 0.4);
    reflexivity.
Defined.

(** X8.  Bands are computed independently, and the result has the bands of
    [abs_coeff] and no other: setting the coefficients of one band in
    [abs_coeff] sets that band's value in the result and leaves every other
    value as it was; without any band the result is the empty dict. *)
Theorem calculate_rt60_insert (l w h : Q) (abs_coeff : gmap string (list Q))
    (band : string) (coeffs : list Q) :
  ∃ res res' r,
    calculate_rt60 [l; w; h] abs_coeff = Ok res
    ∧ calculate_rt60 [l; w; h] (<[band := coeffs]> abs_coeff) = Ok res'
    ∧ res' = <[band := r]> res
    ∧ r = rt60_value (l * w * h)
            (total_absorption_of [l * w; l * w; l * h; l * h; w * h; w * h] coeffs)
    ∧ dom res = dom abs_coeff
    ∧ calculate_rt60 [l; w; h] ∅ = Ok ∅.
Proof.
  eexists _, _, _. split; [apply calculate_rt60_unfold|].
  split; [apply calculate_rt60_unfold|].
  split; [by rewrite fmap_insert|]. split; [done|].
  split; [apply dom_fmap_L|].
  rewrite calculate_rt60_unfold. by rewrite fmap_empty.
Qed.

(** ** The energy array of the decay plot *)

Lemma square_nonneg (x : Q) : 0 <= x ^ 2.
Proof. simpl. nra. Qed.

Lemma sum_square_nonneg (xs : list Q) : 0 <= Py.sum (Np.square xs).
Proof.
  induction xs as [|x xs IH]; [discriminate|].
  unfold Np.square in *. rewrite fmap_cons, sum_cons.
  pose proof (square_nonneg x). lra.
Qed.

Lemma sum_reverse (xs : list Q) : Py.sum (reverse xs) == Py.sum xs.
Proof.
  induction xs as [|x xs IH]; [reflexivity|].
  assert (Py.sum [x] == x) as Hx by (unfold Py.sum; simpl; lra).
  rewrite reverse_cons, sum_app, Hx, IH, sum_cons. lra.
Qed.

(** The energy of a longer prefix is at least that of a shorter one. *)
Lemma sum_square_take_mono (a : list Q) (i j : nat) :
  (i ≤ j)%nat →
  Py.sum (Np.square (take i a)) <= Py.sum (Np.square (take j a)).
Proof.
  intros Hij.
  rewrite <- (take_drop i (take j a)), take_take, (Nat.min_l _ _ Hij).
  unfold Np.square. rewrite fmap_app, sum_app.
  pose proof (sum_square_nonneg (drop i (take j a))) as H. unfold Np.square in H.
  lra.
Qed.

Lemma decay_energy_length (a : list Q) : length (decay_energy a) = length a.
Proof.
  unfold decay_energy, Np.square.
  by rewrite length_reverse, cumsum_length, length_fmap.
Qed.

Lemma decay_energy_lookup_Some (a : list Q) (t : nat) (v : Q) :
  decay_energy a !! t = Some v →
  (t < length a)%nat ∧ v == Py.sum (Np.square (take (length a - t) a)).
Proof.
  intros Hv. pose proof (lookup_lt_Some _ _ _ Hv) as Ht.
  rewrite decay_energy_length in Ht. split; [done|].
  destruct (decay_energy_lookup a t Ht) as (v' & Hv' & Heq). congruence.
Qed.

Lemma decay_energy_first (a : list Q) (v : Q) :
  decay_energy a !! 0%nat = Some v → v == Py.sum (Np.square a).
Proof.
  intros [_ Hv]%decay_energy_lookup_Some.
  by rewrite Nat.sub_0_r, firstn_all in Hv.
Qed.

Lemma decay_energy_last (x : Q) (a' : list Q) :
  ∃ vn, decay_energy (x :: a') !! length a' = Some vn ∧ vn == x ^ 2.
Proof.
  destruct (decay_energy_lookup (x :: a') (length a')) as (vn & Hvn & Heqn);
    [simpl; lia|].
  exists vn. split; [done|]. rewrite Heqn.
  replace (length (x :: a') - length a')%nat with 1%nat by (simpl; lia).
  cbn [take]. rewrite take_0. unfold Np.square, Py.sum. simpl. lra.
Qed.

(** X9.  What line 72 plots: the energy array has one entry per sample, and
    its entry at index [t] is the energy of the first [n - t] samples,
    [a[0]^2 + ... + a[n-1-t]^2]; it starts with the energy of the whole
    response and ends with the energy [a[0]^2] of the first sample alone. *)
Theorem decay_energy_values (a : list Q) :
  length (decay_energy a) = length a
  ∧ (∀ t, (t < length a)%nat →
       ∃ v, decay_energy a !! t = Some v
            ∧ v == Py.sum (Np.square (take (length a - t) a)))
  ∧ (∀ x a', a = x :: a' →
       ∃ v0 vn, decay_energy a !! 0%nat = Some v0
                ∧ v0 == Py.sum (Np.square a)
                ∧ decay_energy a !! length a' = Some vn
                ∧ vn == x ^ 2).
Proof.
  split; [apply decay_energy_length|]. split; [apply decay_energy_lookup|].
  intros x a' ->.
  destruct (decay_energy_lookup (x :: a') 0) as (v0 & Hv0 & _); [simpl; lia|].
  destruct (decay_energy_last x a') as (vn & Hvn & Heqn).
  exists v0, vn. split; [done|]. split; [by apply decay_energy_first|done].
Qed.



(** X11.  The array of line 72 is the cumulative sum from the end of the
    time-reversed response: entry by entry it equals the backward energy
    integral of [a[::-1]].  For a response that reads the same in both
    directions it is the backward integral of the response itself. *)
Theorem decay_energy_is_backward_of_reverse (a : list Q) :
  Forall2 Qeq (decay_energy a) (backward_energy_spec (reverse a))
  ∧ (reverse a = a → Forall2 Qeq (decay_energy a) (backward_energy_spec a)).
Proof.
  assert (Forall2 Qeq (decay_energy a) (backward_energy_spec (reverse a))) as H.
  { assert (∀ b, length (backward_energy_spec b) = length b) as Hlen
      by (induction b as [|? ? IHb]; simpl; [done|by rewrite IHb]).
    apply Forall2_same_length_lookup_2.
    - by rewrite decay_energy_length, Hlen, length_reverse.
    - intros t v v' [Ht Hv]%decay_energy_lookup_Some Hv'.
      destruct (backward_energy_spec_lookup (reverse a) t) as (v'' & Hv'' & Heq);
        [by rewrite length_reverse|].
      assert (v'' = v') as -> by congruence.
      rewrite Hv, Heq, drop_reverse.
      unfold Np.square. by rewrite fmap_reverse, sum_reverse. }
  split; [done|]. intros Hrev. by rewrite Hrev in H.
Qed.

(** ** Normalisation by the maximum (line 73) *)

(** A running maximum that starts at a bound of the list stays there. *)
Lemma max_dominated (xs : list Q) (m x : Q) :
  m == x → Forall (λ y, y <= x) xs →
  foldl (λ m y, if Qle_bool m y then y else m) m xs == x.
Proof.
  intros Hm Hall. revert m Hm.
  induction Hall as [|y xs Hy Hall IH]; intros m Hm; simpl; [done|].
  apply IH. destruct (Qle_bool m y) eqn:E; [|done].
  apply Qle_bool_iff in E. rewrite Hm in E. by apply Qle_antisym.
Qed.

(** Every entry of the energy array is between [0] and the energy of the
    whole response. *)
Lemma decay_energy_bounds (a : list Q) (t : nat) (v : Q) :
  decay_energy a !! t = Some v → 0 <= v ∧ v <= Py.sum (Np.square a).
Proof.
  intros [Ht Hv]%decay_energy_lookup_Some. rewrite Hv.
  split; [apply sum_square_nonneg|].
  pose proof (sum_square_take_mono a (length a - t) (length a)) as H.
  rewrite firstn_all in H. apply H. lia.
Qed.

(** [np.max(energy)] is the first entry, the energy of the whole response;
    on an empty response it raises. *)
Lemma max_decay_energy (a : list Q) :
  match a with
  | [] => Plot.max (decay_energy a) = inl Plot.ValueError
  | _ :: _ => ∃ m, Plot.max (decay_energy a) = inr m ∧ m == Py.sum (Np.square a)
  end.
Proof.
  destruct a as [|x a']; [done|].
  destruct (decay_energy (x :: a')) as [|v0 rest] eqn:E.
  { apply (f_equal length) in E. by rewrite decay_energy_length in E. }
  eexists. split; [reflexivity|].
  assert (v0 == Py.sum (Np.square (x :: a'))) as Hv0.
  { destruct (decay_energy_lookup_Some (x :: a') 0 v0) as [_ H]; [by rewrite E|].
    by rewrite H, Nat.sub_0_r, firstn_all. }
  rewrite <- Hv0. apply max_dominated; [done|].
  apply Forall_lookup. intros i y Hy. rewrite Hv0.
  apply (decay_energy_bounds (x :: a') (S i)). by rewrite E.
Qed.

Lemma divide_finite (x m : Q) : ¬ m == 0 → Plot.divide x m = Plot.Finite (x / m).
Proof.
  intros Hm. unfold Plot.divide. destruct (Qeq_bool m 0) eqn:E; [|done].
  by apply Qeq_bool_iff in E.
Qed.

Lemma divide_nan (x m : Q) : m == 0 → x == 0 → Plot.divide x m = Plot.NaN.
Proof.
  intros Hm Hx. unfold Plot.divide.
  by rewrite (Qeq_eq_bool _ _ Hm), (Qeq_eq_bool _ _ Hx).
Qed.

(** With positive total energy the normalisation divides every entry by
    that energy, and no entry is an infinity or NaN. *)
Lemma normalised_energy_finite (a : list Q) :
  0 < Py.sum (Np.square a) →
  ∃ curve,
    Plot.normalised_energy a = inr curve
    ∧ length curve = length a
    ∧ ∀ t e, decay_energy a !! t = Some e →
        ∃ v, curve !! t = Some (Plot.Finite v) ∧ v == e / Py.sum (Np.square a).
Proof.
  intros Hpos. unfold Plot.normalised_energy.
  pose proof (max_decay_energy a) as Hmax.
  destruct a as [|x a']; [by apply Qlt_irrefl in Hpos|].
  destruct Hmax as (m & -> & Hm). cbn zeta.
  assert (¬ m == 0) as Hne
    by (intros H0; rewrite H0 in Hm; rewrite <- Hm in Hpos; by apply Qlt_irrefl in Hpos).
  eexists. split; [reflexivity|].
  split; [by rewrite length_fmap, decay_energy_length|].
  intros t e He. exists (e / m).
  split; [by rewrite list_lookup_fmap, He; simpl; rewrite divide_finite|].
  by rewrite Hm.
Qed.

(** X12.  For a response with some nonzero sample (positive total energy)
    the array handed to [np.log10] is finite throughout, has one entry per
    sample, starts at [1] (0 dB) and stays within [0, 1]. *)
Theorem normalised_energy_unit_interval (a : list Q) :
  0 < Py.sum (Np.square a) →
  ∃ curve,
    Plot.normalised_energy a = inr curve
    ∧ length curve = length a
    ∧ (∃ v0, curve !! 0%nat = Some (Plot.Finite v0) ∧ v0 == 1)
    ∧ ∀ t, (t < length a)%nat →
        ∃ v, curve !! t = Some (Plot.Finite v) ∧ 0 <= v ∧ v <= 1.
Proof.
  intros Hpos.
  assert (¬ Py.sum (Np.square a) == 0) as Hne
    by (intros H0; rewrite H0 in Hpos; by apply Qlt_irrefl in Hpos).
  destruct (normalised_energy_finite a Hpos) as (curve & Hc & Hlen & Hfin).
  exists curve. split; [done|]. split; [done|].
  assert (∀ t, (t < length a)%nat →
            ∃ v, curve !! t = Some (Plot.Finite v) ∧ 0 <= v ∧ v <= 1) as Hall.
  { intros t Ht. destruct (decay_energy_lookup a t Ht) as (e & He & _).
    destruct (Hfin t e He) as (v & Hv & Heq).
    destruct (decay_energy_bounds _ _ _ He) as [He0 Hem].
    exists v. split; [done|]. rewrite Heq. split.
    - apply Qle_shift_div_l; [done|]. by rewrite Qmult_0_l.
    - apply Qle_shift_div_r; [done|]. by rewrite Qmult_1_l. }
  split; [|done].
  destruct a as [|x a']; [by apply Qlt_irrefl in Hpos|].
  destruct (decay_energy_lookup (x :: a') 0) as (e & He & _); [simpl; lia|].
  destruct (Hfin 0%nat e He) as (v & Hv & Heq).
  exists v. split; [done|].
  rewrite Heq, (decay_energy_first _ _ He). by field.
Qed.

Lemma normalised_energy_unit_interval_witness :
  ∃ curve,
    Plot.normalised_energy [0; 1; -2] = inr curve
    ∧ length curve = length ([0; 1; -2] : list Q)
    ∧ (∃ v0, curve !! 0%nat = Some (Plot.Finite v0) ∧ v0 == 1)
    ∧ ∀ t, (t < length ([0; 1; -2]%Q : list Q))%nat →
        ∃ v, curve !! t = Some (Plot.Finite v) ∧ 0 <= v ∧ v <= 1.
Proof.
  apply (normalised_energy_unit_interval [0; 1; -2]). reflexivity.
Defined.

(** X13.  The edge cases of the normalisation: an empty response makes
    [np.max] raise [ValueError]; a response of zeros only yields [0/0 = NaN]
    at every sample; and when the first sample is [0] while another is not
    (the sound needs time to reach the receiver), the last entry handed to
    [np.log10] is [0]. *)
Theorem normalised_energy_edges (a : list Q) :
  (a = [] → Plot.normalised_energy a = inl Plot.ValueError)
  ∧ (a ≠ [] → Py.sum (Np.square a) == 0 →
     ∃ curve, Plot.normalised_energy a = inr curve
              ∧ length curve = length a
              ∧ Forall (λ x, x = Plot.NaN) curve)
  ∧ (∀ a', a = 0 :: a' → 0 < Py.sum (Np.square a') →
     ∃ curve v, Plot.normalised_energy a = inr curve
                ∧ curve !! length a' = Some (Plot.Finite v)
                ∧ v == 0).
Proof.
  split; [by intros ->|]. split.
  - intros Hne Hzero. unfold Plot.normalised_energy.
    pose proof (max_decay_energy a) as Hmax.
    destruct a as [|x a']; [done|].
    destruct Hmax as (m & -> & Hm). cbn zeta.
    eexists. split; [reflexivity|].
    split; [by rewrite length_fmap, decay_energy_length|].
    apply Forall_lookup. intros i y Hy.
    apply list_lookup_fmap_Some in Hy as (e & -> & He).
    destruct (decay_energy_bounds _ _ _ He) as [He0 Hem].
    apply divide_nan; [by rewrite Hm|].
    rewrite Hzero in Hem. by apply Qle_antisym.
  - intros a' -> Hpos.
    assert (0 < Py.sum (Np.square (0 :: a'))) as Hpos'.
    { unfold Np.square in *. rewrite fmap_cons, sum_cons.
      assert ((0 : Q) ^ 2 == 0) as -> by reflexivity. lra. }
    destruct (normalised_energy_finite (0 :: a') Hpos')
      as (curve & Hc & _ & Hfin).
    destruct (decay_energy_last 0 a') as (vn & Hvn & Heq).
    destruct (Hfin _ _ Hvn) as (v & Hv & Hveq).
    exists curve, v. split; [done|]. split; [done|].
    rewrite Hveq, Heq. simpl. field.
    intros H0. rewrite H0 in Hpos'. by apply Qlt_irrefl in Hpos'.
Qed.

(** ** The bars of the RT60 plot (lines 62-64) *)

Lemma getitem_fmap (f : list Q → Q) (abs_coeff : gmap string (list Q)) (key : string) :
  Plot.getitem (f <$> abs_coeff) key
  = match abs_coeff !! key with
    | Some coeffs => inr (f coeffs)
    | None => inl (Plot.KeyError key)
    end.
Proof. unfold Plot.getitem. rewrite lookup_fmap. by destruct (abs_coeff !! key). Qed.

(** X14.  When [abs_coeff] has the bands [low], [mid] and [high], the bar
    chart built from the result of [calculate_rt60] shows three bars, in this
    order: [Low] with the time of band [low], [Mid] with that of [mid],
    [High] with that of [high]; any further band of [abs_coeff] is computed
    but not shown. *)
Theorem bars_of_calculate_rt60 (l w h : Q) (abs_coeff : gmap string (list Q))
    (low mid high : list Q) :
  abs_coeff !! "low"%string = Some low →
  abs_coeff !! "mid"%string = Some mid →
  abs_coeff !! "high"%string = Some high →
  ∃ res r_low r_mid r_high,
    calculate_rt60 [l; w; h] abs_coeff = Ok res
    ∧ res !! "low"%string = Some r_low
    ∧ res !! "mid"%string = Some r_mid
    ∧ res !! "high"%string = Some r_high
    ∧ Plot.bars res
      = inr [("Low"%string, r_low); ("Mid"%string, r_mid); ("High"%string, r_high)].
Proof.
  intros Hlow Hmid Hhigh.
  eexists _, _, _, _. split; [apply calculate_rt60_unfold|].
  rewrite !lookup_fmap, Hlow, Hmid, Hhigh. repeat (split; [reflexivity|]).
  unfold Plot.bars, Plot.values. by rewrite !getitem_fmap, Hlow, Hmid, Hhigh.
Qed.

Lemma bars_of_calculate_rt60_witness :
  ∃ res r_low r_mid r_high,
    calculate_rt60 [5; 4; 3]
      {[ "high"%string := [0.3; 0.3; 0.3; 0.3; 0.3; 0.3];
         "low"%string := [0.1; 0.1; 0.1; 0.1; 0.1; 0.1];
         "mid"%string := [0.2; 0.2; 0.2; 0.2; 0.2; 0.2];
         "ultra"%string := [0.5; 0.5; 0.5; 0.5; 0.5; 0.5] ]} = Ok res
    ∧ res !! "low"%string = Some r_low
    ∧ res !! "mid"%string = Some r_mid
    ∧ res !! "high"%string = Some r_high
    ∧ Plot.bars res
      = inr [("Low"%string, r_low); ("Mid"%string, r_mid); ("High"%string, r_high)].
Proof.
  apply (bars_of_calculate_rt60 5 4 3
           {[ "high"%string := [0.3; 0.3; 0.3; 0.3; 0.3; 0.3];
              "low"%string := [0.1; 0.1; 0.1; 0.1; 0.1; 0.1];
              "mid"%string := [0.2; 0.2; 0.2; 0.2; 0.2; 0.2];
              "ultra"%string := [0.5; 0.5; 0.5; 0.5; 0.5; 0.5] ]}
           [0.1; 0.1; 0.1; 0.1; 0.1; 0.1] [0.2; 0.2; 0.2; 0.2; 0.2; 0.2]
           [0.3; 0.3; 0.3; 0.3; 0.3; 0.3]);
    reflexivity.
Defined.

(** X15.  The bar chart fails exactly when [abs_coeff] lacks one of the
    bands [low], [mid], [high], with a [KeyError] naming the first missing
    one in that order; [calculate_rt60] itself accepts any set of bands. *)
Theorem bars_key_error (l w h : Q) (abs_coeff : gmap string (list Q))
    (res : gmap string Q) (e : Plot.exception) :
  calculate_rt60 [l; w; h] abs_coeff = Ok res →
  Plot.bars res = inl e ↔
    (abs_coeff !! "low"%string = None ∧ e = Plot.KeyError "low")
    ∨ (is_Some (abs_coeff !! "low"%string)
       ∧ abs_coeff !! "mid"%string = None ∧ e = Plot.KeyError "mid")
    ∨ (is_Some (abs_coeff !! "low"%string) ∧ is_Some (abs_coeff !! "mid"%string)
       ∧ abs_coeff !! "high"%string = None ∧ e = Plot.KeyError "high").
Proof.
  rewrite calculate_rt60_unfold. intros [= <-].
  unfold Plot.bars, Plot.values. rewrite !getitem_fmap.
  destruct (abs_coeff !! "low"%string) as [low|];
    destruct (abs_coeff !! "mid"%string) as [mid|];
    destruct (abs_coeff !! "high"%string) as [high|];
    split; intros H;
    repeat match goal with
      | H : _ ∨ _ |- _ => destruct H
      | H : _ ∧ _ |- _ => destruct H
      | H : is_Some None |- _ => by destruct H
      | H : inl _ = inl _ |- _ => injection H as <-
      end;
    try discriminate; subst; eauto 10.
Qed.

Lemma bars_key_error_witness :
  ∃ res,
    calculate_rt60 [5; 4; 3]
      {[ "low"%string := [0.1; 0.1; 0.1; 0.1; 0.1; 0.1];
         "high"%string := [0.3; 0.3; 0.3; 0.3; 0.3; 0.3] ]} = Ok res
    ∧ Plot.bars res = inl (Plot.KeyError "mid").
Proof.
  eexists. split; [apply calculate_rt60_unfold|].
  apply (bars_key_error 5 4 3
           {[ "low"%string := [0.1; 0.1; 0.1; 0.1; 0.1; 0.1];
              "high"%string := [0.3; 0.3; 0.3; 0.3; 0.3; 0.3] ]});
    [apply calculate_rt60_unfold|].
  right. left. split; [by eexists|]. split; reflexivity.
Defined.

(** ** Successive calls on one heap *)

(** X16.  Every call returns a new dict object: it is none of the objects
    that existed before the call (so neither argument nor an earlier
    result), and a second call on the same arguments returns another object
    with the same contents while the first result stays as it was. *)
Theorem calculate_rt60_fresh_result (σ : gmap positive Store.object)
    (room_dims abs_coeff : positive) (dims : list Q) (bands : gmap string (list Q)) :
  well_formed σ room_dims abs_coeff dims bands →
  ∃ r1 σ1 r2 σ2 res,
    Store.calculate_rt60 room_dims abs_coeff σ = Ok (r1, σ1)
    ∧ Store.calculate_rt60 room_dims abs_coeff σ1 = Ok (r2, σ2)
    ∧ σ !! r1 = None
    ∧ r1 ≠ r2
    ∧ σ2 !! r1 = Some (Store.PyNumDict res)
    ∧ σ2 !! r2 = Some (Store.PyNumDict res)
    ∧ calculate_rt60 dims bands = Ok res.
Proof.
  intros Hwf.
  destruct (store_calculate_rt60_refines _ _ _ _ _ Hwf)
    as (r1 & σ1 & res1 & Hrun1 & Hfresh1 & Hr1 & Hpure1 & Hframe1).
  pose proof (well_formed_frame _ _ _ _ _ _ Hframe1 Hwf) as Hwf1.
  destruct (store_calculate_rt60_refines _ _ _ _ _ Hwf1)
    as (r2 & σ2 & res2 & Hrun2 & Hfresh2 & Hr2 & Hpure2 & Hframe2).
  assert (res2 = res1) as -> by congruence.
  exists r1, σ1, r2, σ2, res1.
  split; [done|]. split; [done|]. split; [done|].
  split; [congruence|].
  split; [by rewrite Hframe2|done].
Qed.

Lemma calculate_rt60_fresh_result_witness :
  ∃ r1 σ1 r2 σ2 res,
    Store.calculate_rt60 1%positive 2%positive example_heap1 = Ok (r1, σ1)
    ∧ Store.calculate_rt60 1%positive 2%positive σ1 = Ok (r2, σ2)
    ∧ example_heap1 !! r1 = None
    ∧ r1 ≠ r2
    ∧ σ2 !! r1 = Some (Store.PyNumDict res)
    ∧ σ2 !! r2 = Some (Store.PyNumDict res)
    ∧ calculate_rt60 [5; 4; 3] {[ "low"%string := example_coeffs ]} = Ok res.
Proof.
  exact (calculate_rt60_fresh_result example_heap1 1 2 [5; 4; 3]
           {[ "low"%string := example_coeffs ]} example_heap1_well_formed).
Defined.
